(** * Email tracking server: open beacons and link clicks

    A shallow embedding of [tracking_server.py]: the two SQLite tables, the
    request handlers [track_email] (route [/track/<tracking_id>]) and
    [track_link_click] (route [/click/<link_id>]), and the properties of the
    event-ingestion core.

    Conventions of the embedding:
    - a table is a finite map from its [PRIMARY KEY] to the rest of the row;
    - a handler is a computation in a reader/state/exception monad: it reads
      the ambient conditions of the request ([env]: the clock and which store
      operations fail), threads the [world] (the two committed tables and the
      standard output) and may raise;
    - a [sqlite3] connection carries its open transaction; the tables of the
      [world] change at [commit] only, and a connection that is dropped by an
      exception loses its transaction. *)

From Stdlib Require Import ZArith DecimalString.
From stdpp Require Import base option list gmap strings sorting.

Local Open Scope string_scope.
Local Open Scope list_scope.
Local Open Scope Z_scope.

(** ** Data model *)

(** A reading of [datetime.now()]. *)
Definition timestamp : Type := Z.

(** Rows of [email_tracking] (key: [tracking_id]) and of [link_tracking]
    (key: [link_id]).  The columns filled by the sender of the email have their
    declared type; the counters, whose [NULL] the handlers meet, and the
    columns the handlers write are nullable.  A counter holds an integer or
    [NULL]; Python integers are unbounded and so are the counters here (the
    64-bit range of an SQLite INTEGER is not modelled). *)
Module EmailTracking.
Record row : Type := Row {
  recipient_email : string;
  subject : string;
  sent_at : timestamp;
  opened_at : option timestamp;
  open_count : option Z;
  user_agent : option string;
  ip_address : option string }.

(** [SELECT open_count FROM email_tracking WHERE tracking_id = ?] followed by
    [fetchone()]: [None] when no row matches, else the one-column row. *)
Definition select_open_count (rows : gmap string row) (tracking_id : string)
  : option (option Z) :=
  open_count <$> rows !! tracking_id.

(** The clause [SET opened_at = ?, open_count = ?, user_agent = ?,
    ip_address = ?] on one row. *)
Definition set_columns (opened : timestamp) (count : Z) (agent : string)
    (ip : option string) (r : row) : row :=
  {| recipient_email := recipient_email r;
     subject := subject r;
     sent_at := sent_at r;
     opened_at := Some opened;
     open_count := Some count;
     user_agent := Some agent;
     ip_address := ip |}.

(** [UPDATE email_tracking SET opened_at = ?, open_count = ?, user_agent = ?,
    ip_address = ? WHERE tracking_id = ?]. *)
Definition update (params : timestamp * Z * string * option string * string)
    (rows : gmap string row) : gmap string row :=
  let '(opened, count, agent, ip, tracking_id) := params in
  alter (set_columns opened count agent ip) tracking_id rows.
End EmailTracking.

Module LinkTracking.
Record row : Type := Row {
  original_url : string;
  email_id : string;
  recipient_email : string;
  created_at : timestamp;
  click_count : option Z;
  last_clicked : option timestamp;
  user_agent : option string;
  ip_address : option string }.

(** [SELECT original_url, click_count FROM link_tracking WHERE link_id = ?]
    followed by [fetchone()]. *)
Definition select_url_click_count (rows : gmap string row) (link_id : string)
  : option (string * option Z) :=
  (λ r, (original_url r, click_count r)) <$> rows !! link_id.

(** The clause [SET click_count = ?, last_clicked = ?, user_agent = ?,
    ip_address = ?] on one row. *)
Definition set_columns (count : Z) (clicked : timestamp) (agent : string)
    (ip : option string) (r : row) : row :=
  {| original_url := original_url r;
     email_id := email_id r;
     recipient_email := recipient_email r;
     created_at := created_at r;
     click_count := Some count;
     last_clicked := Some clicked;
     user_agent := Some agent;
     ip_address := ip |}.

(** [UPDATE link_tracking SET click_count = ?, last_clicked = ?,
    user_agent = ?, ip_address = ? WHERE link_id = ?]. *)
Definition update (params : Z * timestamp * string * option string * string)
    (rows : gmap string row) : gmap string row :=
  let '(count, clicked, agent, ip, link_id) := params in
  alter (set_columns count clicked agent ip) link_id rows.
End LinkTracking.

(** The 1x1 transparent GIF. *)
Definition TRACKING_PIXEL : list Byte.byte :=
  [ Byte.x47; Byte.x49; Byte.x46; Byte.x38; Byte.x39; Byte.x61;
    Byte.x01; Byte.x00; Byte.x01; Byte.x00; Byte.x80; Byte.x00; Byte.x00;
    Byte.x00; Byte.x00; Byte.x00; Byte.x00; Byte.x00; Byte.x00;
    Byte.x21; Byte.xf9; Byte.x04; Byte.x01; Byte.x00; Byte.x00; Byte.x00; Byte.x00;
    Byte.x2c; Byte.x00; Byte.x00; Byte.x00; Byte.x00; Byte.x01; Byte.x00;
    Byte.x01; Byte.x00; Byte.x00;
    Byte.x02; Byte.x02; Byte.x44; Byte.x01; Byte.x00;
    Byte.x3b ].

(** What a view function hands back to Flask. *)
Inductive response : Type :=
| Response (data : list Byte.byte) (mimetype : string)
    (* [Response(data, mimetype=...)] *)
| redirect (location : string)
    (* [redirect(location)] *)
| Body_status (body : string) (status : Z).
    (* the tuple [(body, status)] *)

Definition status_code (r : response) : Z :=
  match r with
  | Response _ _ => 200
  | redirect _ => 302
  | Body_status _ status => status
  end.

Definition location_header (r : response) : option string :=
  match r with
  | redirect location => Some location
  | _ => None
  end.

(** The part of Flask's [request] the handlers read. *)
Record request : Type := {
  headers : gmap string string;
  remote_addr : option string }.

(** ** Store operations, exceptions and the handler monad *)

Inductive db_op : Type :=
| Connect          (* [sqlite3.connect] *)
| Execute_select   (* [cursor.execute] of the SELECT, with [fetchone] *)
| Execute_update   (* [cursor.execute] of the UPDATE *)
| Commit           (* [conn.commit] *)
| Close.           (* [conn.close] *)

Inductive exn : Type :=
| StoreError (op : db_op)   (* a [sqlite3] call raised *)
| TypeError.                (* [None + 1] *)

Inductive log_line : Type :=
| Email_opened (tracking_id : string)
| Link_clicked (link_id : string)
| User_agent_is (agent : string)
| Ip_address_is (ip : option string)
| Database_updated (count : Z)
| Tracking_id_not_found (tracking_id : string)
| Tracking_error (e : exn)
| Redirecting_to (url : string)
| Click_count_is (count : Z)
| Link_tracking_error (e : exn).

(** The ambient conditions of one request: the clock reading and the store
    operations that fail while it is served. *)
Record env : Type := {
  now : timestamp;
  fails : db_op → bool }.

Record world : Type := World {
  email_tracking : gmap string EmailTracking.row;
  link_tracking : gmap string LinkTracking.row;
  stdout : list log_line }.

(** One of the two database files, seen from the [world]. *)
Record database (Row : Type) : Type := {
  table : world → gmap string Row;
  set_table : gmap string Row → world → world }.
Arguments table {Row} _ _.
Arguments set_table {Row} _ _ _.

Definition email_tracking_db : database EmailTracking.row :=
  {| table := email_tracking;
     set_table := λ rows w, World rows (link_tracking w) (stdout w) |}.

Definition link_tracking_db : database LinkTracking.row :=
  {| table := link_tracking;
     set_table := λ rows w, World (email_tracking w) rows (stdout w) |}.

(** A connection: the file it is open on and the rows of its open
    transaction, if it has one. *)
Record connection (Row : Type) : Type := {
  file : database Row;
  transaction : option (gmap string Row) }.
Arguments file {Row} _.
Arguments transaction {Row} _.

Definition M (A : Type) : Type := env → world → (exn + A) * world.

Definition ret {A} (a : A) : M A := λ _ w, (inr a, w).

Definition bind {A B} (m : M A) (k : A → M B) : M B :=
  λ e w, match m e w with
         | (inl x, w') => (inl x, w')
         | (inr a, w') => k a e w'
         end.

Definition raise {A} (x : exn) : M A := λ _ w, (inl x, w).

(** [try: m except Exception as x: h x]. *)
Definition try_except {A} (m : M A) (h : exn → M A) : M A :=
  λ e w, match m e w with
         | (inl x, w') => h x e w'
         | (inr a, w') => (inr a, w')
         end.

#[global] Instance M_ret : MRet M := @ret.
#[global] Instance M_bind : MBind M := λ A B k m, bind m k.

Definition gets {A} (f : world → A) : M A := λ _ w, (inr (f w), w).

Definition modify (f : world → world) : M unit := λ _ w, (inr (), f w).

Definition print (l : log_line) : M unit :=
  modify (λ w, World (email_tracking w) (link_tracking w) (stdout w ++ [l])).

Definition datetime_now : M timestamp := λ e w, (inr (now e), w).

(** Every [sqlite3] call first meets the store: it raises when the store
    fails at that operation. *)
Definition store_call (op : db_op) : M unit :=
  λ e w, if fails e op then (inl (StoreError op), w) else (inr (), w).

Definition connect {Row} (db : database Row) : M (connection Row) :=
  store_call Connect;;
  mret {| file := db; transaction := None |}.

(** The rows a statement of the connection sees. *)
Definition visible {Row} (conn : connection Row) (w : world) : gmap string Row :=
  default (table (file conn) w) (transaction conn).

Definition execute_select {Row A} (conn : connection Row)
    (query : gmap string Row → A) : M A :=
  store_call Execute_select;;
  gets (λ w, query (visible conn w)).

(** A data-modifying statement opens a transaction when none is open. *)
Definition execute_update {Row} (conn : connection Row)
    (statement : gmap string Row → gmap string Row) : M (connection Row) :=
  store_call Execute_update;;
  rows ← gets (visible conn);
  mret {| file := file conn; transaction := Some (statement rows) |}.

Definition commit {Row} (conn : connection Row) : M (connection Row) :=
  store_call Commit;;
  modify (λ w, match transaction conn with
               | Some rows => set_table (file conn) rows w
               | None => w
               end);;
  mret {| file := file conn; transaction := None |}.

Definition close {Row} (conn : connection Row) : M unit :=
  store_call Close.

(** ** The handlers *)

(** The body of the [try] of [track_email]. *)
Definition track_email_try (tracking_id : string) (req : request) : M unit :=
  let user_agent := default "Unknown" (headers req !! "User-Agent") in
  let ip_address := remote_addr req in
  print (Email_opened tracking_id);;
  print (User_agent_is user_agent);;
  print (Ip_address_is ip_address);;
  conn ← connect email_tracking_db;
  result ← execute_select conn
             (λ rows, EmailTracking.select_open_count rows tracking_id);
  conn ← match result with
          | Some column =>
              let open_count := default 0 column in
              opened ← datetime_now;
              conn ← execute_update conn
                       (EmailTracking.update
                          (opened, open_count + 1, user_agent, ip_address,
                           tracking_id));
              conn ← commit conn;
              print (Database_updated (open_count + 1));;
              mret conn
          | None =>
              print (Tracking_id_not_found tracking_id);;
              mret conn
          end;
  close conn.

Definition track_email (tracking_id : string) (req : request) : M response :=
  try_except (track_email_try tracking_id req)
             (λ e, print (Tracking_error e));;
  mret (Response TRACKING_PIXEL "image/gif").

(** [click_count + 1]. *)
Definition plus_one (count : option Z) : M Z :=
  match count with
  | Some n => mret (n + 1)
  | None => raise TypeError
  end.

(** The body of the [try] of [track_link_click]. *)
Definition track_link_click_try (link_id : string) (req : request) : M response :=
  let user_agent := default "Unknown" (headers req !! "User-Agent") in
  let ip_address := remote_addr req in
  print (Link_clicked link_id);;
  print (User_agent_is user_agent);;
  print (Ip_address_is ip_address);;
  conn ← connect link_tracking_db;
  result ← execute_select conn
             (λ rows, LinkTracking.select_url_click_count rows link_id);
  match result with
  | Some (original_url, click_count) =>
      count ← plus_one click_count;
      clicked ← datetime_now;
      conn ← execute_update conn
               (LinkTracking.update
                  (count, clicked, user_agent, ip_address, link_id));
      conn ← commit conn;
      close conn;;
      print (Redirecting_to original_url);;
      count ← plus_one click_count;
      print (Click_count_is count);;
      mret (redirect original_url)
  | None =>
      close conn;;
      mret (Body_status "Link not found" 404)
  end.

Definition track_link_click (link_id : string) (req : request) : M response :=
  try_except (track_link_click_try link_id req)
             (λ e, print (Link_tracking_error e);;
                   mret (Body_status "Error processing link" 500)).

(** ** The server: routes and a sequence of requests *)

Inductive route : Type :=
| Track (tracking_id : string)   (* [/track/<tracking_id>] *)
| Click (link_id : string).      (* [/click/<link_id>] *)

#[global] Instance route_eq_dec : EqDecision route.
Proof. solve_decision. Defined.

Definition dispatch (r : route) (req : request) : M response :=
  match r with
  | Track tracking_id => track_email tracking_id req
  | Click link_id => track_link_click link_id req
  end.

(** A request as it arrives: its route, what Flask knows of it, and the
    conditions under which it is served. *)
Record arrival : Type := {
  target : route;
  sent : request;
  conditions : env }.

(** What the client gets: the response of the view, or the exception the view
    let escape. *)
Definition serve (a : arrival) (w : world) : (exn + response) * world :=
  dispatch (target a) (sent a) (conditions a) w.

(** Requests served one after the other. *)
Fixpoint serve_all (arrivals : list arrival) (w : world)
  : list (exn + response) * world :=
  match arrivals with
  | [] => ([], w)
  | a :: rest =>
      let (r, w') := serve a w in
      let (rs, w'') := serve_all rest w' in
      (r :: rs, w'')
  end.

(** [N] open beacons for one tracking identifier. *)
Definition opens (tracking_id : string) (events : list (request * env))
  : list arrival :=
  map (λ ev, {| target := Track tracking_id; sent := ev.1; conditions := ev.2 |})
      events.

(** [N] clicks on one link identifier. *)
Definition clicks (link_id : string) (events : list (request * env))
  : list arrival :=
  map (λ ev, {| target := Click link_id; sent := ev.1; conditions := ev.2 |})
      events.

(** The store takes the write of a request: connecting, the SELECT, the
    UPDATE and the commit all go through.  (A failing [close] comes after the
    commit.) *)
Definition store_accepts (e : env) : bool :=
  negb (fails e Connect) && negb (fails e Execute_select)
  && negb (fails e Execute_update) && negb (fails e Commit).

(** The number of requests of a sequence that went to route [r] while the
    store took writes. *)
Definition accepted (r : route) (arrivals : list arrival) : nat :=
  length (filter (λ a, target a = r ∧ store_accepts (conditions a)) arrivals).

(** The user agent a handler records. *)
Definition agent_of (req : request) : string :=
  default "Unknown" (headers req !! "User-Agent").

(** The answer of the [except] branch of [track_link_click]. *)
Definition error_500 : response := Body_status "Error processing link" 500.

(** The answer of [track_email]. *)
Definition pixel : response := Response TRACKING_PIXEL "image/gif".

(** A record as the sender of the email creates it: never opened, never
    clicked, its counter at the column default or unset. *)
Definition fresh_tracking (r : EmailTracking.row) : Prop :=
  default 0 (EmailTracking.open_count r) = 0 ∧ EmailTracking.opened_at r = None.

Definition fresh_link (l : LinkTracking.row) : Prop :=
  default 0 (LinkTracking.click_count l) = 0 ∧ LinkTracking.last_clicked l = None.

(** ** Overlapping requests to [/track/<tracking_id>]

    The transport layer serves requests in threads; the handlers meet in the
    database file only.  A handler is followed through the statements of
    [track_email] that touch [email_tracking]: the SELECT, the UPDATE (which
    opens the transaction of its connection and takes the write lock of the
    file) and the commit.  The store works throughout; a handler whose UPDATE
    finds the file locked by the transaction of another waits.  A schedule
    names the handler that takes the next step. *)
Module Concurrent.
Inductive position : Type :=
| At_select
    (* before line 96 *)
| At_update (result : option (option Z))
    (* [result] fetched, before line 99 *)
| At_commit (transaction : gmap string EmailTracking.row)
    (* UPDATE executed, before line 112 *)
| Returned.

Record handler : Type := {
  tracking_id : string;
  req : request;
  clock : timestamp;
  position_of : position }.

Definition move (h : handler) (p : position) : handler :=
  {| tracking_id := tracking_id h; req := req h; clock := clock h;
     position_of := p |}.

Record state : Type := {
  rows : gmap string EmailTracking.row;   (* the committed table *)
  handlers : list handler }.

Definition writing (h : handler) : bool :=
  match position_of h with At_commit _ => true | _ => false end.

Definition returned (h : handler) : bool :=
  match position_of h with Returned => true | _ => false end.

(** The next statement of handler [i]. *)
Definition step (i : nat) (s : state) : state :=
  match handlers s !! i with
  | None => s
  | Some h =>
      match position_of h with
      | At_select =>
          let result := EmailTracking.select_open_count (rows s) (tracking_id h) in
          {| rows := rows s;
             handlers := <[i := move h (At_update result)]> (handlers s) |}
      | At_update (Some column) =>
          if existsb writing (handlers s) then s
          else
            let open_count := default 0 column in
            let transaction :=
              EmailTracking.update
                (clock h, open_count + 1, agent_of (req h),
                 remote_addr (req h), tracking_id h) (rows s) in
            {| rows := rows s;
               handlers := <[i := move h (At_commit transaction)]> (handlers s) |}
      | At_update None =>
          {| rows := rows s;
             handlers := <[i := move h Returned]> (handlers s) |}
      | At_commit transaction =>
          {| rows := transaction;
             handlers := <[i := move h Returned]> (handlers s) |}
      | Returned => s
      end
  end.

Definition run (schedule : list nat) (s : state) : state :=
  foldl (λ s i, step i s) s schedule.

(** [M] requests for one tracking identifier, all accepted and none
    started. *)
Definition arrive (tracking_id : string) (events : list (request * timestamp))
  : list handler :=
  map (λ ev, {| tracking_id := tracking_id; req := ev.1; clock := ev.2;
                position_of := At_select |}) events.

Definition all_returned (s : state) : bool := forallb returned (handlers s).

(** The schedule that lets each of [n] handlers run to its end before the
    next starts. *)
Definition one_by_one (n : nat) : list nat :=
  flat_map (λ i, [i; i; i]) (seq 0 n).

(** The open count of a record of a table. *)
Definition open_count_of (rows : gmap string EmailTracking.row)
    (tracking_id : string) : option Z :=
  rows !! tracking_id ≫= EmailTracking.open_count.

(** The handlers that have returned. *)
Definition returned_count (hs : list handler) : nat :=
  sum_list_with (λ h, if returned h then 1%nat else 0%nat) hs.

(** What a handler serving [id] may hold, [d] handlers having returned, when
    the count of the record was [start] as the handlers arrived: a count it
    read, or a transaction with the count it is about to publish. *)
Definition position_ok (id : string) (start : Z) (d : nat) (h : handler)
  : Prop :=
  tracking_id h = id ∧
  match position_of h with
  | At_select | Returned => True
  | At_update result =>
      ∃ v, result = Some (Some v) ∧ start ≤ v ≤ start + Z.of_nat d
  | At_commit transaction =>
      ∃ p, open_count_of transaction id = Some p
           ∧ start + 1 ≤ p ≤ start + Z.of_nat d + 1
  end.

(** The invariant of the interleavings: the committed count has moved by at
    least one once a handler has returned, and by at most one for each
    handler that has returned. *)
Definition count_ok (id : string) (start : Z) (s : state) : Prop :=
  let d := returned_count (handlers s) in
  (∃ n, open_count_of (rows s) id = Some n
        ∧ start + (if d is O then 0 else 1) ≤ n ≤ start + Z.of_nat d)
  ∧ Forall (position_ok id start d) (handlers s).

(** The store serializes overlapping open events: whatever the schedule,
    [M] events on an existing record leave its count [M] higher. *)
Definition serializes : Prop :=
  ∀ (rows : gmap string EmailTracking.row) (tracking_id : string) (start : Z)
    (events : list (request * timestamp)) (schedule : list nat),
    open_count_of rows tracking_id = Some start →
    let s := run schedule
               {| rows := rows; handlers := arrive tracking_id events |} in
    all_returned s = true →
    open_count_of (Concurrent.rows s) tracking_id
      = Some (start + Z.of_nat (length events)).
End Concurrent.

(** ** [test_tracking]: an open triggered by hand *)

(** [str(n)] of an integer. *)
Definition str_int (n : Z) : string := NilZero.string_of_int (Z.to_int n).

Section test_tracking.
(** [str(e)] of an exception; the text of a [sqlite3] error is the
    library's. *)
Variable str_exn : exn → string.

(** The body of the [try] of [test_tracking].  Both branches return before
    [conn.close()], which is never reached. *)
Definition test_tracking_try (tracking_id : string) : M string :=
  conn ← connect email_tracking_db;
  result ← execute_select conn
             (λ rows, EmailTracking.select_open_count rows tracking_id);
  match result with
  | Some column =>
      let open_count := default 0 column in
      opened ← datetime_now;
      conn ← execute_update conn
               (EmailTracking.update
                  (opened, open_count + 1, "Test Browser", Some "127.0.0.1",
                   tracking_id));
      conn ← commit conn;
      mret ("<html><body><h1>Test Tracking</h1><p>Successfully updated tracking for ID: "
            +:+ tracking_id +:+ "</p><p>New open count: "
            +:+ str_int (open_count + 1) +:+ "</p></body></html>")
  | None =>
      mret ("<html><body><h1>Test Tracking</h1><p>Tracking ID not found: "
            +:+ tracking_id +:+ "</p></body></html>")
  end.

Definition test_tracking (tracking_id : string) : M string :=
  try_except (test_tracking_try tracking_id)
             (λ e, mret ("<html><body><h1>Test Error</h1><p>" +:+ str_exn e
                         +:+ "</p></body></html>")).
End test_tracking.

(** The request [test_tracking] stands for. *)
Definition test_browser : request :=
  {| headers := {[ "User-Agent" := "Test Browser" ]};
     remote_addr := Some "127.0.0.1" |}.

(** ** The statistics readers *)

(** [ORDER BY sent_at DESC] on the rows of [email_tracking]: [x] may come
    before [y].  SQL leaves the order of rows with equal keys open. *)
Definition sent_not_before (x y : string * EmailTracking.row) : Prop :=
  EmailTracking.sent_at y.2 ≤ EmailTracking.sent_at x.2.

#[global] Instance sent_not_before_dec x y : Decision (sent_not_before x y).
Proof. unfold sent_not_before. apply _. Defined.

(** The rows of [email_tracking] with their keys, most recently sent first
    (rows with equal [sent_at] in the order merge sort leaves them). *)
Definition by_sent_at_desc (rows : gmap string EmailTracking.row)
  : list (string * EmailTracking.row) :=
  merge_sort sent_not_before (map_to_list rows).

(** [SELECT tracking_id, subject, sent_at, opened_at, open_count
     FROM email_tracking WHERE recipient_email = ? ORDER BY sent_at DESC]
    followed by [fetchall()]. *)
Definition select_by_recipient (rows : gmap string EmailTracking.row)
    (recipient_email : string)
  : list (string * string * timestamp * option timestamp * option Z) :=
  (λ x, (x.1, EmailTracking.subject x.2, EmailTracking.sent_at x.2,
         EmailTracking.opened_at x.2, EmailTracking.open_count x.2))
  <$> merge_sort sent_not_before
        (filter (λ x, EmailTracking.recipient_email x.2 = recipient_email)
                (map_to_list rows)).

(** The dictionaries [get_recipient_stats] returns. *)
Module Stats.
Record email : Type := {
  tracking_id : string;
  subject : string;
  sent_at : timestamp;
  opened_at : option timestamp;
  open_count : Z }.

Record report : Type := {
  recipient : string;
  emails : list email }.
End Stats.

(** The entry of [get_recipient_stats] for one fetched row. *)
Definition stat_of_row
    (row : string * string * timestamp * option timestamp * option Z)
  : Stats.email :=
  let '(tracking_id, subject, sent_at, opened_at, open_count) := row in
  {| Stats.tracking_id := tracking_id;
     Stats.subject := subject;
     Stats.sent_at := sent_at;
     Stats.opened_at := opened_at;
     Stats.open_count := default 0 open_count |}.

(** [/api/stats/<recipient_email>]; no [try]: an exception of the store
    escapes. *)
Definition get_recipient_stats (recipient_email : string) : M Stats.report :=
  conn ← connect email_tracking_db;
  results ← execute_select conn
              (λ rows, select_by_recipient rows recipient_email);
  close conn;;
  mret {| Stats.recipient := recipient_email;
          Stats.emails := stat_of_row <$> results |}.

(** The rows behind the page of [view_stats]: [ORDER BY sent_at DESC
    LIMIT 100]. *)
Definition recent_emails (rows : gmap string EmailTracking.row)
  : list (string * EmailTracking.row) :=
  take 100 (by_sent_at_desc rows).

(** [SELECT recipient_email, subject, sent_at, opened_at, open_count,
     user_agent FROM email_tracking ORDER BY sent_at DESC LIMIT 100]
    followed by [fetchall()]. *)
Definition select_recent_emails (rows : gmap string EmailTracking.row)
  : list (string * string * timestamp * option timestamp * option Z
          * option string) :=
  (λ x, (EmailTracking.recipient_email x.2, EmailTracking.subject x.2,
         EmailTracking.sent_at x.2, EmailTracking.opened_at x.2,
         EmailTracking.open_count x.2, EmailTracking.user_agent x.2))
  <$> recent_emails rows.

(** SQLite's order on a nullable column: [NULL] is below every value. *)
Definition null_le (a b : option Z) : Prop :=
  match a, b with
  | None, _ => True
  | Some _, None => False
  | Some x, Some y => x ≤ y
  end.

#[global] Instance null_le_dec a b : Decision (null_le a b).
Proof. destruct a, b; simpl; apply _. Defined.

(** [ORDER BY last_clicked DESC, created_at DESC] on the rows of
    [link_tracking]: [x] may come before [y]. *)
Definition clicked_not_before (x y : string * LinkTracking.row) : Prop :=
  if decide (LinkTracking.last_clicked x.2 = LinkTracking.last_clicked y.2)
  then LinkTracking.created_at y.2 ≤ LinkTracking.created_at x.2
  else null_le (LinkTracking.last_clicked y.2) (LinkTracking.last_clicked x.2).

#[global] Instance clicked_not_before_dec x y : Decision (clicked_not_before x y).
Proof. unfold clicked_not_before. case_decide; apply _. Defined.

(** The rows behind the page of [view_link_stats]: [ORDER BY last_clicked
    DESC, created_at DESC LIMIT 100]. *)
Definition recent_links (rows : gmap string LinkTracking.row)
  : list (string * LinkTracking.row) :=
  take 100 (merge_sort clicked_not_before (map_to_list rows)).

(** [SELECT recipient_email, original_url, click_count, last_clicked,
     created_at FROM link_tracking ORDER BY last_clicked DESC,
     created_at DESC LIMIT 100] followed by [fetchall()]. *)
Definition select_recent_links (rows : gmap string LinkTracking.row)
  : list (string * string * option Z * option timestamp * timestamp) :=
  (λ x, (LinkTracking.recipient_email x.2, LinkTracking.original_url x.2,
         LinkTracking.click_count x.2, LinkTracking.last_clicked x.2,
         LinkTracking.created_at x.2))
  <$> recent_links rows.

(** The URL cell of [view_link_stats]:
    [row[1][:50] + '...' if len(row[1]) > 50 else row[1]]. *)
Definition url_display (url : string) : string :=
  if decide (50 < String.length url)%nat
  then String.substring 0 50 url +:+ "..."
  else url.

#[global] Instance email_row_eq_dec : EqDecision EmailTracking.row.
Proof. solve_decision. Defined.

#[global] Instance link_row_eq_dec : EqDecision LinkTracking.row.
Proof. solve_decision. Defined.

(** ** The records of the worked example *)

Definition abc123 : EmailTracking.row :=
  {| EmailTracking.recipient_email := "a@x.com";
     EmailTracking.subject := "Hello";
     EmailTracking.sent_at := 1000;
     EmailTracking.opened_at := None;
     EmailTracking.open_count := Some 0;
     EmailTracking.user_agent := None;
     EmailTracking.ip_address := None |}.

Definition lnk1 : LinkTracking.row :=
  {| LinkTracking.original_url := "https://example.com/promo";
     LinkTracking.email_id := "abc123";
     LinkTracking.recipient_email := "a@x.com";
     LinkTracking.created_at := 1000;
     LinkTracking.click_count := Some 0;
     LinkTracking.last_clicked := None;
     LinkTracking.user_agent := None;
     LinkTracking.ip_address := None |}.

(** A tracking record and a link record whose counters were stored as
    [NULL]. *)
Definition abc_null : EmailTracking.row :=
  {| EmailTracking.recipient_email := "a@x.com";
     EmailTracking.subject := "Hello";
     EmailTracking.sent_at := 1000;
     EmailTracking.opened_at := None;
     EmailTracking.open_count := None;
     EmailTracking.user_agent := None;
     EmailTracking.ip_address := None |}.

Definition lnk_null : LinkTracking.row :=
  {| LinkTracking.original_url := "https://example.com/promo";
     LinkTracking.email_id := "abc123";
     LinkTracking.recipient_email := "a@x.com";
     LinkTracking.created_at := 1000;
     LinkTracking.click_count := None;
     LinkTracking.last_clicked := None;
     LinkTracking.user_agent := None;
     LinkTracking.ip_address := None |}.

Definition example_world : world :=
  {| email_tracking := {[ "abc123" := abc123 ]};
     link_tracking := {[ "lnk1" := lnk1 ]};
     stdout := [] |}.

Definition null_world : world :=
  {| email_tracking := {[ "abc123" := abc_null ]};
     link_tracking := {[ "lnk1" := lnk_null ]};
     stdout := [] |}.

Definition browser : request :=
  {| headers := {[ "User-Agent" := "Mozilla/5.0" ]};
     remote_addr := Some "203.0.113.7" |}.

(** The store works and the clock reads [t]. *)
Definition healthy (t : timestamp) : env :=
  {| now := t; fails := λ _, false |}.

(** The clock reads [t] and the store fails at [op]. *)
Definition failing (op : db_op) (t : timestamp) : env :=
  {| now := t;
     fails := λ op', match op, op' with
                     | Connect, Connect | Execute_select, Execute_select
                     | Execute_update, Execute_update | Commit, Commit
                     | Close, Close => true
                     | _, _ => false
                     end |}.

(** A table of 101 tracking records, sent at times 0 to 100 and keyed by
    their time. *)
Definition sent_at_time (t : Z) : string * EmailTracking.row :=
  (str_int t,
   {| EmailTracking.recipient_email := "a@x.com";
      EmailTracking.subject := "Hello";
      EmailTracking.sent_at := t;
      EmailTracking.opened_at := None;
      EmailTracking.open_count := Some 0;
      EmailTracking.user_agent := None;
      EmailTracking.ip_address := None |}).

Definition hundred_and_one : world :=
  {| email_tracking := list_to_map (sent_at_time <$> seqZ 0 101);
     link_tracking := ∅;
     stdout := [] |}.

(** A link clicked at time 2001. *)
Definition lnk2 : LinkTracking.row :=
  {| LinkTracking.original_url := "https://example.com/news";
     LinkTracking.email_id := "abc123";
     LinkTracking.recipient_email := "a@x.com";
     LinkTracking.created_at := 900;
     LinkTracking.click_count := Some 1;
     LinkTracking.last_clicked := Some 2001;
     LinkTracking.user_agent := Some "Mozilla/5.0";
     LinkTracking.ip_address := Some "203.0.113.7" |}.

Definition two_links : world :=
  {| email_tracking := {[ "abc123" := abc123 ]};
     link_tracking := {[ "lnk1" := lnk1; "lnk2" := lnk2 ]};
     stdout := [] |}.

(** * Properties *)

(** ** One request to each handler *)

Ltac unfold_handler :=
  unfold track_email, track_email_try, track_link_click, track_link_click_try,
    try_except, connect, execute_select, execute_update, commit, close,
    plus_one, print, datetime_now, store_call, gets, modify, raise,
    mbind, M_bind, bind, mret, M_ret, ret, visible;
  simpl.

(** Case analysis on whether the store fails at [op]. *)
Ltac store_case e op := destruct (fails e op) eqn:?; simpl; try reflexivity.

Lemma track_email_response tracking_id req e w :
  (track_email tracking_id req e w).1
    = inr (Response TRACKING_PIXEL "image/gif").
Proof.
  unfold_handler.
  store_case e Connect. store_case e Execute_select.
  destruct (EmailTracking.select_open_count _ _); simpl.
  - store_case e Execute_update. store_case e Commit. store_case e Close.
  - store_case e Close.
Qed.

Lemma track_email_link_tracking tracking_id req e w :
  link_tracking (track_email tracking_id req e w).2 = link_tracking w.
Proof.
  unfold_handler.
  store_case e Connect. store_case e Execute_select.
  destruct (EmailTracking.select_open_count _ _); simpl.
  - store_case e Execute_update. store_case e Commit. store_case e Close.
  - store_case e Close.
Qed.

Lemma track_email_email_tracking tracking_id req e w :
  email_tracking (track_email tracking_id req e w).2 =
    match email_tracking w !! tracking_id with
    | Some r =>
        if store_accepts e
        then EmailTracking.update
               (now e, default 0 (EmailTracking.open_count r) + 1,
                agent_of req, remote_addr req, tracking_id) (email_tracking w)
        else email_tracking w
    | None => email_tracking w
    end.
Proof.
  unfold_handler.
  unfold store_accepts, agent_of, EmailTracking.select_open_count.
  store_case e Connect; [by case_match|].
  store_case e Execute_select; [by case_match|].
  destruct (email_tracking w !! tracking_id); simpl.
  - store_case e Execute_update. store_case e Commit. store_case e Close.
  - store_case e Close.
Qed.

Lemma track_link_click_response link_id req e w :
  (track_link_click link_id req e w).1 =
    inr (if fails e Connect || fails e Execute_select then error_500
         else match link_tracking w !! link_id with
              | None =>
                  if fails e Close then error_500
                  else Body_status "Link not found" 404
              | Some l =>
                  match LinkTracking.click_count l with
                  | None => error_500
                  | Some _ =>
                      if fails e Execute_update || fails e Commit || fails e Close
                      then error_500
                      else redirect (LinkTracking.original_url l)
                  end
              end).
Proof.
  unfold_handler.
  unfold LinkTracking.select_url_click_count.
  store_case e Connect. store_case e Execute_select.
  destruct (link_tracking w !! link_id) as [l|]; simpl.
  - destruct (LinkTracking.click_count l); simpl; try reflexivity.
    store_case e Execute_update. store_case e Commit. store_case e Close.
  - store_case e Close.
Qed.

Lemma track_link_click_email_tracking link_id req e w :
  email_tracking (track_link_click link_id req e w).2 = email_tracking w.
Proof.
  unfold_handler.
  unfold LinkTracking.select_url_click_count.
  store_case e Connect. store_case e Execute_select.
  destruct (link_tracking w !! link_id) as [l|]; simpl.
  - destruct (LinkTracking.click_count l); simpl; try reflexivity.
    store_case e Execute_update. store_case e Commit. store_case e Close.
  - store_case e Close.
Qed.

Lemma track_link_click_link_tracking link_id req e w :
  link_tracking (track_link_click link_id req e w).2 =
    match link_tracking w !! link_id with
    | Some l =>
        match LinkTracking.click_count l with
        | Some n =>
            if store_accepts e
            then LinkTracking.update
                   (n + 1, now e, agent_of req, remote_addr req, link_id)
                   (link_tracking w)
            else link_tracking w
        | None => link_tracking w
        end
    | None => link_tracking w
    end.
Proof.
  unfold_handler.
  unfold store_accepts, agent_of, LinkTracking.select_url_click_count.
  store_case e Connect; [by repeat case_match|].
  store_case e Execute_select; [by repeat case_match|].
  destruct (link_tracking w !! link_id) as [l|]; simpl.
  - destruct (LinkTracking.click_count l); simpl; try reflexivity.
    store_case e Execute_update. store_case e Commit. store_case e Close.
  - store_case e Close.
Qed.

Lemma track_link_click_try_raises link_id req e w x :
  (track_link_click_try link_id req e w).1 = inl x →
  (track_link_click link_id req e w).1 = inr error_500.
Proof.
  unfold track_link_click, try_except.
  destruct (track_link_click_try link_id req e w) as [[x'|r] w']; simpl.
  - reflexivity.
  - discriminate.
Qed.

(** ** Requests served in sequence *)

Lemma serve_all_cons a arrivals w :
  serve_all (a :: arrivals) w =
    ((serve a w).1 :: (serve_all arrivals (serve a w).2).1,
     (serve_all arrivals (serve a w).2).2).
Proof.
  simpl. destruct (serve a w) as [r w']; simpl.
  destruct (serve_all arrivals w') as [rs w'']; reflexivity.
Qed.

Lemma serve_all_length arrivals w :
  length (serve_all arrivals w).1 = length arrivals.
Proof.
  revert w; induction arrivals as [|a arrivals IH]; intros w; [reflexivity|].
  rewrite serve_all_cons; simpl. by rewrite IH.
Qed.

Lemma serve_track_unknown tracking_id req e w :
  email_tracking w !! tracking_id = None →
  let a := {| target := Track tracking_id; sent := req; conditions := e |} in
  (serve a w).1 = inr pixel
  ∧ email_tracking (serve a w).2 = email_tracking w
  ∧ link_tracking (serve a w).2 = link_tracking w.
Proof.
  intros Hnone; unfold serve; simpl. split_and!.
  - apply track_email_response.
  - by rewrite track_email_email_tracking, Hnone.
  - apply track_email_link_tracking.
Qed.

(** An exception of the [try] of [track_email] ends on the standard output,
    and nowhere else. *)
Lemma track_email_logs_exception tracking_id req e w x :
  (track_email_try tracking_id req e w).1 = inl x →
  last (stdout (track_email tracking_id req e w).2) = Some (Tracking_error x).
Proof.
  unfold track_email, try_except, print, modify, mbind, M_bind, bind, mret,
    M_ret, ret.
  destruct (track_email_try tracking_id req e w) as [[x'|[]] w']; simpl.
  - intros [= ->]. apply last_snoc.
  - discriminate.
Qed.

(** C6: whatever store operation fails while [/track/<tracking_id>] is
    served, the handler lets no exception escape and answers with the fixed
    pixel, as [image/gif] and with status 200. *)
Theorem track_email_absorbs_store_failures tracking_id req e w :
  (track_email tracking_id req e w).1 = inr (Response TRACKING_PIXEL "image/gif")
  ∧ ∀ r, (track_email tracking_id req e w).1 = inr r → status_code r = 200.
Proof.
  split; [apply track_email_response|].
  intros r. rewrite track_email_response. by intros [= <-].
Qed.

(** C4: for a tracking identifier without a record, any number of open events
    leaves both tables as they were (no record created, none changed) and
    every one of them is answered with the fixed pixel as [image/gif]. *)
Theorem opens_of_unknown_id_change_nothing tracking_id events w :
  email_tracking w !! tracking_id = None →
  email_tracking (serve_all (opens tracking_id events) w).2 = email_tracking w
  ∧ link_tracking (serve_all (opens tracking_id events) w).2 = link_tracking w
  ∧ (serve_all (opens tracking_id events) w).1
      = replicate (length events) (inr (Response TRACKING_PIXEL "image/gif")).
Proof.
  revert w. induction events as [|[req e] events IH]; intros w Hnone.
  - done.
  - unfold opens; simpl map. fold (opens tracking_id events).
    rewrite serve_all_cons.
    destruct (serve_track_unknown tracking_id req e w Hnone) as (Hr & He & Hl).
    simpl in Hr, He, Hl. simpl fst; simpl snd.
    destruct (IH (serve {| target := Track tracking_id; sent := req;
                           conditions := e |} w).2) as (IHe & IHl & IHr).
    { by rewrite He. }
    rewrite IHe, IHl, IHr, He, Hl, Hr. done.
Qed.

Lemma opens_of_unknown_id_change_nothing_witness :
  email_tracking (serve_all (opens "nobody"
     [(browser, healthy 1); (browser, failing Commit 2); (browser, healthy 3)])
     example_world).2 = email_tracking example_world
  ∧ link_tracking (serve_all (opens "nobody"
     [(browser, healthy 1); (browser, failing Commit 2); (browser, healthy 3)])
     example_world).2 = link_tracking example_world
  ∧ (serve_all (opens "nobody"
     [(browser, healthy 1); (browser, failing Commit 2); (browser, healthy 3)])
     example_world).1
      = replicate 3 (inr (Response TRACKING_PIXEL "image/gif")).
Proof.
  apply (opens_of_unknown_id_change_nothing "nobody"
     [(browser, healthy 1); (browser, failing Commit 2); (browser, healthy 3)]
     example_world).
  vm_compute. reflexivity.
Defined.

(** C5: a click on a link identifier without a record leaves both tables as
    they were, and, the store answering, is answered with status 404 and the
    plain body "Link not found". *)
Theorem click_on_unknown_id_not_found link_id req e w :
  link_tracking w !! link_id = None →
  fails e Connect = false → fails e Execute_select = false →
  fails e Close = false →
  (track_link_click link_id req e w).1 = inr (Body_status "Link not found" 404)
  ∧ link_tracking (track_link_click link_id req e w).2 = link_tracking w
  ∧ email_tracking (track_link_click link_id req e w).2 = email_tracking w.
Proof.
  intros Hnone Hc Hs Hcl. split_and!.
  - by rewrite track_link_click_response, Hnone, Hc, Hs, Hcl.
  - by rewrite track_link_click_link_tracking, Hnone.
  - apply track_link_click_email_tracking.
Qed.

Lemma click_on_unknown_id_not_found_witness :
  (track_link_click "nolink" browser (healthy 5) example_world).1
    = inr (Body_status "Link not found" 404)
  ∧ link_tracking (track_link_click "nolink" browser (healthy 5) example_world).2
    = link_tracking example_world
  ∧ email_tracking (track_link_click "nolink" browser (healthy 5) example_world).2
    = email_tracking example_world.
Proof.
  apply (click_on_unknown_id_not_found "nolink" browser (healthy 5) example_world);
    vm_compute; reflexivity.
Defined.



Lemma track_link_click_try_outcome link_id req e w :
  (track_link_click_try link_id req e w).1 =
    if fails e Connect then inl (StoreError Connect)
    else if fails e Execute_select then inl (StoreError Execute_select)
    else match link_tracking w !! link_id with
         | None =>
             if fails e Close then inl (StoreError Close)
             else inr (Body_status "Link not found" 404)
         | Some l =>
             match LinkTracking.click_count l with
             | None => inl TypeError
             | Some _ =>
                 if fails e Execute_update then inl (StoreError Execute_update)
                 else if fails e Commit then inl (StoreError Commit)
                 else if fails e Close then inl (StoreError Close)
                 else inr (redirect (LinkTracking.original_url l))
             end
         end.
Proof.
  unfold_handler.
  unfold LinkTracking.select_url_click_count.
  store_case e Connect. store_case e Execute_select.
  destruct (link_tracking w !! link_id) as [l|]; simpl.
  - destruct (LinkTracking.click_count l); simpl; try reflexivity.
    store_case e Execute_update. store_case e Commit. store_case e Close.
  - store_case e Close.
Qed.

(** What one request does to a record that exists. *)
Lemma serve_email_tracking_lookup a w tracking_id r :
  email_tracking w !! tracking_id = Some r →
  email_tracking (serve a w).2 !! tracking_id =
    Some (if decide (target a = Track tracking_id ∧ store_accepts (conditions a))
          then EmailTracking.set_columns
                 (now (conditions a))
                 (default 0 (EmailTracking.open_count r) + 1)
                 (agent_of (sent a)) (remote_addr (sent a)) r
          else r).
Proof.
  intros Hr. destruct a as [[id|id] req e];
    unfold serve; cbn [target sent conditions dispatch].
  - rewrite track_email_email_tracking.
    destruct (decide (id = tracking_id)) as [->|Hne].
    + rewrite Hr. destruct (store_accepts e) eqn:He.
      * rewrite decide_True by done.
        unfold EmailTracking.update. by rewrite lookup_alter_eq, Hr.
      * rewrite decide_False; [done|]. intros [_ []].
    + rewrite decide_False by (intros [[=] _]; done).
      destruct (email_tracking w !! id); [|done].
      destruct (store_accepts e); [|done].
      unfold EmailTracking.update. by rewrite lookup_alter_ne.
  - rewrite track_link_click_email_tracking.
    by rewrite decide_False by (intros [[=] _]).
Qed.

Lemma serve_link_tracking_lookup a w link_id l :
  link_tracking w !! link_id = Some l →
  link_tracking (serve a w).2 !! link_id =
    Some (match LinkTracking.click_count l with
          | Some n =>
              if decide (target a = Click link_id ∧ store_accepts (conditions a))
              then LinkTracking.set_columns
                     (n + 1) (now (conditions a))
                     (agent_of (sent a)) (remote_addr (sent a)) l
              else l
          | None => l
          end).
Proof.
  intros Hl. destruct a as [[id|id] req e];
    unfold serve; cbn [target sent conditions dispatch].
  - rewrite track_email_link_tracking, Hl.
    destruct (LinkTracking.click_count l); [|done].
    by rewrite decide_False by (intros [[=] _]).
  - rewrite track_link_click_link_tracking.
    destruct (decide (id = link_id)) as [->|Hne].
    + rewrite Hl. destruct (LinkTracking.click_count l) as [n|]; [|done].
      destruct (store_accepts e) eqn:He.
      * rewrite decide_True by done.
        unfold LinkTracking.update. by rewrite lookup_alter_eq, Hl.
      * rewrite decide_False; [done|]. intros [_ []].
    + transitivity (Some l).
      * destruct (link_tracking w !! id) as [l0|]; [|done].
        destruct (LinkTracking.click_count l0); [|done].
        destruct (store_accepts e); [|done].
        unfold LinkTracking.update. by rewrite lookup_alter_ne.
      * destruct (LinkTracking.click_count l); [|done].
        by rewrite decide_False by (intros [[=] _]; done).
Qed.

Lemma accepted_cons r a arrivals :
  accepted r (a :: arrivals) =
    ((if decide (target a = r ∧ store_accepts (conditions a)) then 1 else 0)
     + accepted r arrivals)%nat.
Proof.
  unfold accepted. rewrite filter_cons.
  destruct (decide (target a = r ∧ store_accepts (conditions a))); reflexivity.
Qed.

Lemma opens_accumulate tracking_id events : ∀ w r c,
  email_tracking w !! tracking_id = Some r →
  EmailTracking.open_count r = Some c →
  Forall (λ ev, store_accepts ev.2 = true) events →
  ∃ r',
    email_tracking (serve_all (opens tracking_id events) w).2 !! tracking_id
      = Some r'
    ∧ EmailTracking.open_count r' = Some (c + Z.of_nat (length events))
    ∧ ∀ ev, last events = Some ev → EmailTracking.opened_at r' = Some (now ev.2).
Proof.
  induction events as [|[req e] events IH]; intros w r c Hr Hc Hok.
  - exists r. simpl. split_and!; [done| |done].
    rewrite Hc. f_equal. lia.
  - apply Forall_cons in Hok as [He Hok]. simpl in He.
    unfold opens; simpl map; fold (opens tracking_id events).
    rewrite serve_all_cons; simpl snd.
    set (a := {| target := Track tracking_id; sent := req; conditions := e |}).
    pose proof (serve_email_tracking_lookup a w tracking_id r Hr) as H1.
    rewrite decide_True in H1 by (by subst a; simpl; rewrite He).
    destruct (IH _ _ (c + 1) H1) as (r' & Hr' & Hc' & Hlast).
    { simpl. by rewrite Hc. }
    { done. }
    exists r'. split_and!; [done| |].
    + rewrite Hc'. f_equal. simpl length. lia.
    + intros ev Hev. destruct events as [|ev' events].
      * simpl in Hev. injection Hev as <-.
        simpl in Hr'. rewrite H1 in Hr'. by injection Hr' as <-.
      * by apply Hlast.
Qed.

(** C2: on a record whose open count is [c], [N] open events served one
    after the other while the store takes the writes leave the count at
    [c + N], so at [N] from 0 and one higher for each event, and leave the
    opened timestamp at the clock reading of the last event. *)
Theorem sequential_opens_counted tracking_id events w r c :
  email_tracking w !! tracking_id = Some r →
  EmailTracking.open_count r = Some c →
  Forall (λ ev, store_accepts ev.2 = true) events →
  ∃ r',
    email_tracking (serve_all (opens tracking_id events) w).2 !! tracking_id
      = Some r'
    ∧ EmailTracking.open_count r' = Some (c + Z.of_nat (length events))
    ∧ ∀ ev, last events = Some ev → EmailTracking.opened_at r' = Some (now ev.2).
Proof. apply opens_accumulate. Qed.

Lemma sequential_opens_counted_witness :
  ∃ r',
    email_tracking
      (serve_all (opens "abc123" [(browser, healthy 2001); (browser, healthy 2002)])
                 example_world).2 !! "abc123" = Some r'
    ∧ EmailTracking.open_count r' = Some (0 + Z.of_nat 2)
    ∧ ∀ ev, last [(browser, healthy 2001); (browser, healthy 2002)] = Some ev →
            EmailTracking.opened_at r' = Some (now ev.2).
Proof.
  apply (sequential_opens_counted "abc123"
           [(browser, healthy 2001); (browser, healthy 2002)]
           example_world abc123 0).
  - vm_compute. reflexivity.
  - reflexivity.
  - repeat constructor.
Defined.

(** C3 fails on a link record whose click count is [NULL]: the record exists
    and the store works, yet the click is answered with status 500, no
    redirect is sent, and the record keeps its [NULL] count and has no
    last-clicked timestamp. *)
Theorem click_on_null_count_not_redirected :
  link_tracking null_world !! "lnk1" = Some lnk_null
  ∧ (track_link_click "lnk1" browser (healthy 2000) null_world).1
      = inr (Body_status "Error processing link" 500)
  ∧ (track_link_click "lnk1" browser (healthy 2000) null_world).1
      ≠ inr (redirect (LinkTracking.original_url lnk_null))
  ∧ link_tracking (track_link_click "lnk1" browser (healthy 2000) null_world).2
      !! "lnk1" = Some lnk_null.
Proof. vm_compute. split_and!; (reflexivity || discriminate). Qed.

(** A click on a record whose count is set: one more click, the clock
    reading as last-clicked timestamp, and a redirect to the stored URL,
    which stays. *)
Lemma click_counted link_id req e w l n :
  link_tracking w !! link_id = Some l →
  LinkTracking.click_count l = Some n →
  (∀ op, fails e op = false) →
  (track_link_click link_id req e w).1 = inr (redirect (LinkTracking.original_url l))
  ∧ ∃ l', link_tracking (track_link_click link_id req e w).2 !! link_id = Some l'
          ∧ LinkTracking.click_count l' = Some (n + 1)
          ∧ LinkTracking.last_clicked l' = Some (now e)
          ∧ LinkTracking.original_url l' = LinkTracking.original_url l.
Proof.
  intros Hl Hn Hok. split.
  - by rewrite track_link_click_response, Hl, Hn, !Hok.
  - pose proof (serve_link_tracking_lookup
                  {| target := Click link_id; sent := req; conditions := e |}
                  w link_id l Hl) as H.
    rewrite Hn, decide_True in H.
    + eexists; split; [exact H|]. done.
    + split; [done|]. simpl. unfold store_accepts. by rewrite !Hok.
Qed.

(** C8: a request, whatever its route and whether or not the store takes its
    write, leaves every tracking record in place with its recipient address,
    subject and sent timestamp, and every link record in place with its
    destination URL, email identifier, recipient address and creation
    timestamp. *)
Theorem creation_fields_unchanged a w :
  (∀ tracking_id r,
     email_tracking w !! tracking_id = Some r →
     ∃ r', email_tracking (serve a w).2 !! tracking_id = Some r'
           ∧ EmailTracking.recipient_email r' = EmailTracking.recipient_email r
           ∧ EmailTracking.subject r' = EmailTracking.subject r
           ∧ EmailTracking.sent_at r' = EmailTracking.sent_at r)
  ∧ (∀ link_id l,
       link_tracking w !! link_id = Some l →
       ∃ l', link_tracking (serve a w).2 !! link_id = Some l'
             ∧ LinkTracking.original_url l' = LinkTracking.original_url l
             ∧ LinkTracking.email_id l' = LinkTracking.email_id l
             ∧ LinkTracking.recipient_email l' = LinkTracking.recipient_email l
             ∧ LinkTracking.created_at l' = LinkTracking.created_at l).
Proof.
  split.
  - intros tracking_id r Hr.
    eexists; split; [by apply serve_email_tracking_lookup|].
    by case_decide.
  - intros link_id l Hl.
    eexists; split; [by apply serve_link_tracking_lookup|].
    destruct (LinkTracking.click_count l); [|done]. by case_decide.
Qed.

Lemma creation_fields_unchanged_witness :
  (∃ r', email_tracking
           (serve {| target := Track "abc123"; sent := browser;
                     conditions := healthy 2001 |} example_world).2 !! "abc123"
           = Some r'
         ∧ EmailTracking.recipient_email r' = EmailTracking.recipient_email abc123
         ∧ EmailTracking.subject r' = EmailTracking.subject abc123
         ∧ EmailTracking.sent_at r' = EmailTracking.sent_at abc123)
  ∧ (∃ l', link_tracking
             (serve {| target := Click "lnk1"; sent := browser;
                       conditions := healthy 2001 |} example_world).2 !! "lnk1"
             = Some l'
           ∧ LinkTracking.original_url l' = LinkTracking.original_url lnk1
           ∧ LinkTracking.email_id l' = LinkTracking.email_id lnk1
           ∧ LinkTracking.recipient_email l' = LinkTracking.recipient_email lnk1
           ∧ LinkTracking.created_at l' = LinkTracking.created_at lnk1).
Proof.
  split.
  - apply (proj1 (creation_fields_unchanged _ example_world) "abc123" abc123).
    vm_compute. reflexivity.
  - apply (proj2 (creation_fields_unchanged _ example_world) "lnk1" lnk1).
    vm_compute. reflexivity.
Defined.

(** ** Invariants of the records *)

Lemma tracking_record_after arrivals : ∀ w tracking_id r,
  email_tracking w !! tracking_id = Some r →
  ∃ r',
    email_tracking (serve_all arrivals w).2 !! tracking_id = Some r'
    ∧ default 0 (EmailTracking.open_count r')
      = default 0 (EmailTracking.open_count r)
        + Z.of_nat (accepted (Track tracking_id) arrivals)
    ∧ (accepted (Track tracking_id) arrivals = 0%nat → r' = r)
    ∧ (accepted (Track tracking_id) arrivals ≠ 0%nat →
       is_Some (EmailTracking.opened_at r')).
Proof.
  induction arrivals as [|a arrivals IH]; intros w tracking_id r Hr.
  - exists r. simpl. split_and!; [done|unfold accepted; simpl; lia|done|done].
  - rewrite serve_all_cons, accepted_cons; simpl snd.
    pose proof (serve_email_tracking_lookup a w tracking_id r Hr) as H1.
    destruct (IH _ _ _ H1) as (r' & Hr' & Hc' & Hsame & Hopened).
    exists r'. split; [done|].
    destruct (decide (target a = Track tracking_id ∧ store_accepts (conditions a))).
    + split_and!.
      * rewrite Hc'. simpl. lia.
      * intros [=].
      * intros _.
        destruct (decide (accepted (Track tracking_id) arrivals = 0%nat)) as [H0|H0].
        -- rewrite (Hsame H0). simpl. by eexists.
        -- by apply Hopened.
    + split_and!; [by rewrite Hc'|done|done].
Qed.

Lemma link_record_after arrivals : ∀ w link_id l,
  link_tracking w !! link_id = Some l →
  0 ≤ default 0 (LinkTracking.click_count l) →
  (0 < default 0 (LinkTracking.click_count l)
   ↔ is_Some (LinkTracking.last_clicked l)) →
  ∃ l',
    link_tracking (serve_all arrivals w).2 !! link_id = Some l'
    ∧ 0 ≤ default 0 (LinkTracking.click_count l')
    ∧ (0 < default 0 (LinkTracking.click_count l')
       ↔ is_Some (LinkTracking.last_clicked l')).
Proof.
  induction arrivals as [|a arrivals IH]; intros w link_id l Hl Hpos Hiff.
  - by exists l.
  - rewrite serve_all_cons; simpl snd.
    pose proof (serve_link_tracking_lookup a w link_id l Hl) as H1.
    destruct (LinkTracking.click_count l) as [n|] eqn:Hn.
    + case_decide.
      * apply (IH _ _ _ H1); simpl in *; [lia|].
        split; [by eexists|lia].
      * apply (IH _ _ _ H1); by rewrite Hn.
    + apply (IH _ _ _ H1); by rewrite Hn.
Qed.



(** C10: a [NULL] counter is met differently by the two handlers.  An open
    event on a tracking record whose open count is [NULL] counts from 0 and
    sets it to 1.  A click on a link record whose click count is [NULL]
    raises at the increment ([TypeError], once the SELECT has answered): the
    answer is status 500 with the body "Error processing link", no redirect
    is sent, and the tables stay as they were. *)
Theorem null_counter_open_vs_click :
  (∀ tracking_id req e w r,
     email_tracking w !! tracking_id = Some r →
     EmailTracking.open_count r = None →
     store_accepts e = true →
     ∃ r', email_tracking (track_email tracking_id req e w).2 !! tracking_id
             = Some r'
           ∧ EmailTracking.open_count r' = Some 1)
  ∧ (∀ link_id req e w l,
       link_tracking w !! link_id = Some l →
       LinkTracking.click_count l = None →
       (track_link_click link_id req e w).1
         = inr (Body_status "Error processing link" 500)
       ∧ (fails e Connect = false → fails e Execute_select = false →
          (track_link_click_try link_id req e w).1 = inl TypeError)
       ∧ link_tracking (track_link_click link_id req e w).2 = link_tracking w
       ∧ email_tracking (track_link_click link_id req e w).2 = email_tracking w).
Proof.
  split.
  - intros tracking_id req e w r Hr Hnull He.
    pose proof (serve_email_tracking_lookup
                  {| target := Track tracking_id; sent := req; conditions := e |}
                  w tracking_id r Hr) as H.
    rewrite decide_True in H by (by simpl; rewrite He).
    eexists; split; [exact H|]. simpl. by rewrite Hnull.
  - intros link_id req e w l Hl Hnull. split_and!.
    + rewrite track_link_click_response, Hl, Hnull. by destruct (_ || _).
    + intros Hc Hs. by rewrite track_link_click_try_outcome, Hc, Hs, Hl, Hnull.
    + by rewrite track_link_click_link_tracking, Hl, Hnull.
    + apply track_link_click_email_tracking.
Qed.

Lemma null_counter_open_vs_click_witness :
  (∃ r', email_tracking (track_email "abc123" browser (healthy 2001) null_world).2
           !! "abc123" = Some r'
         ∧ EmailTracking.open_count r' = Some 1)
  ∧ ((track_link_click "lnk1" browser (healthy 2002) null_world).1
       = inr (Body_status "Error processing link" 500)
     ∧ (fails (healthy 2002) Connect = false →
        fails (healthy 2002) Execute_select = false →
        (track_link_click_try "lnk1" browser (healthy 2002) null_world).1
          = inl TypeError)
     ∧ link_tracking (track_link_click "lnk1" browser (healthy 2002) null_world).2
       = link_tracking null_world
     ∧ email_tracking (track_link_click "lnk1" browser (healthy 2002) null_world).2
       = email_tracking null_world).
Proof.
  split.
  - apply (proj1 null_counter_open_vs_click "abc123" browser (healthy 2001)
             null_world abc_null).
    + vm_compute. reflexivity.
    + reflexivity.
    + reflexivity.
  - apply (proj2 null_counter_open_vs_click "lnk1" browser (healthy 2002)
             null_world lnk_null).
    + vm_compute. reflexivity.
    + reflexivity.
Defined.

(** ** Overlapping requests *)

(** The open count of a record after the UPDATE of [track_email]. *)
Lemma open_count_of_update rows tracking_id r opened count agent ip :
  rows !! tracking_id = Some r →
  Concurrent.open_count_of
    (EmailTracking.update (opened, count, agent, ip, tracking_id) rows)
    tracking_id = Some count.
Proof.
  intros Hr. unfold Concurrent.open_count_of, EmailTracking.update.
  by rewrite lookup_alter_eq, Hr.
Qed.

Lemma open_count_of_Some rows tracking_id n :
  Concurrent.open_count_of rows tracking_id = Some n →
  ∃ r, rows !! tracking_id = Some r ∧ EmailTracking.open_count r = Some n.
Proof.
  unfold Concurrent.open_count_of. destruct (rows !! tracking_id) as [r|]; [|done].
  simpl. by exists r.
Qed.

Lemma returned_count_insert hs i h h' :
  hs !! i = Some h →
  (Concurrent.returned_count (<[i:=h']> hs) + (if Concurrent.returned h then 1 else 0)
   = Concurrent.returned_count hs + (if Concurrent.returned h' then 1 else 0))%nat.
Proof.
  revert i. induction hs as [|h0 hs IH]; intros [|i] Hi; simplify_eq/=.
  - unfold Concurrent.returned_count; simpl. lia.
  - specialize (IH i Hi). unfold Concurrent.returned_count in *; simpl. lia.
Qed.

Lemma returned_count_all hs :
  forallb Concurrent.returned hs = true → Concurrent.returned_count hs = length hs.
Proof.
  induction hs as [|h hs IH]; [done|]. simpl.
  intros [Hh Hhs]%andb_true_iff. unfold Concurrent.returned_count in *; simpl.
  rewrite Hh, IH by done. done.
Qed.

Lemma run_app schedule1 schedule2 s :
  Concurrent.run (schedule1 ++ schedule2) s
    = Concurrent.run schedule2 (Concurrent.run schedule1 s).
Proof. apply foldl_app. Qed.

Lemma run_cons i schedule s :
  Concurrent.run (i :: schedule) s
    = Concurrent.run schedule (Concurrent.step i s).
Proof. reflexivity. Qed.

Lemma step_length i s :
  length (Concurrent.handlers (Concurrent.step i s))
    = length (Concurrent.handlers s).
Proof.
  unfold Concurrent.step.
  repeat case_match; simpl; by rewrite ?length_insert.
Qed.

Lemma run_length schedule s :
  length (Concurrent.handlers (Concurrent.run schedule s))
    = length (Concurrent.handlers s).
Proof.
  revert s. induction schedule as [|i schedule IH]; intros s; [done|].
  by rewrite run_cons, IH, step_length.
Qed.

Section interleavings.
(** All handlers serve the tracking identifier [id], whose record had the
    open count [start] when they arrived. *)
Variables (id : string) (start : Z).

Local Abbreviation position_ok := (Concurrent.position_ok id start).
Local Abbreviation count_ok := (Concurrent.count_ok id start).

Lemma position_ok_mono d d' h :
  (d ≤ d')%nat → position_ok d h → position_ok d' h.
Proof.
  intros Hd [Hid Hpos]. split; [done|].
  destruct (Concurrent.position_of h); [done| | |done].
  - destruct Hpos as (v & -> & Hv). exists v. split; [done|lia].
  - destruct Hpos as (p & Hp & Hb). exists p. split; [done|lia].
Qed.

Lemma step_count_ok i s : count_ok s → count_ok (Concurrent.step i s).
Proof.
  intros [(n & Hn & Hbound) Hall]. unfold Concurrent.step.
  destruct (Concurrent.handlers s !! i) as [h|] eqn:Hi; [|by split; eauto].
  pose proof (Forall_lookup_1 _ _ _ _ Hall Hi) as [Hid Hpos].
  destruct (Concurrent.position_of h) as [|result|transaction|] eqn:Hat.
  - (* the SELECT reads the committed count *)
    assert (Concurrent.returned_count
              (<[i:=Concurrent.move h
                      (Concurrent.At_update
                         (EmailTracking.select_open_count (Concurrent.rows s)
                            (Concurrent.tracking_id h)))]>
                 (Concurrent.handlers s))
            = Concurrent.returned_count (Concurrent.handlers s)) as Hd.
    { pose proof (returned_count_insert _ _ _
                    (Concurrent.move h
                       (Concurrent.At_update
                          (EmailTracking.select_open_count (Concurrent.rows s)
                             (Concurrent.tracking_id h)))) Hi) as H.
      unfold Concurrent.returned in H at 1 2. rewrite Hat in H. simpl in H. lia. }
    split; simpl; rewrite Hd; [by eauto|].
    apply Forall_insert; [done|]. split; [done|]. simpl.
    apply open_count_of_Some in Hn as (r & Hr & Hc).
    exists n. unfold EmailTracking.select_open_count.
    rewrite Hid, Hr. simpl. rewrite Hc. split; [done|].
    destruct (Concurrent.returned_count (Concurrent.handlers s)); lia.
  - destruct Hpos as (v & -> & Hv).
    destruct (existsb Concurrent.writing (Concurrent.handlers s));
      [by split; eauto|].
    (* the UPDATE writes the count read, plus one, in a transaction *)
    set (h' := Concurrent.move h _).
    assert (Concurrent.returned_count (<[i:=h']> (Concurrent.handlers s))
            = Concurrent.returned_count (Concurrent.handlers s)) as Hd.
    { pose proof (returned_count_insert _ _ _ h' Hi) as H.
      unfold Concurrent.returned in H at 1 2. rewrite Hat in H. simpl in H. lia. }
    split; simpl; rewrite Hd; [by eauto|].
    apply Forall_insert; [done|]. split; [done|]. simpl.
    apply open_count_of_Some in Hn as (r & Hr & Hc).
    exists (v + 1). rewrite Hid. split; [|lia].
    by eapply open_count_of_update.
  - (* the commit publishes the transaction *)
    destruct Hpos as (p & Hp & Hb).
    set (h' := Concurrent.move h Concurrent.Returned).
    assert (Concurrent.returned_count (<[i:=h']> (Concurrent.handlers s))
            = S (Concurrent.returned_count (Concurrent.handlers s))) as Hd.
    { pose proof (returned_count_insert _ _ _ h' Hi) as H.
      unfold Concurrent.returned in H at 1 2. rewrite Hat in H. simpl in H. lia. }
    split; simpl; rewrite Hd.
    + exists p. split; [done|lia].
    + apply Forall_insert; [|done].
      eapply Forall_impl; [exact Hall|].
      intros h0. apply position_ok_mono. lia.
  - by split; eauto.
Qed.

Lemma run_count_ok schedule s :
  count_ok s → count_ok (Concurrent.run schedule s).
Proof.
  revert s. induction schedule as [|i schedule IH]; intros s Hs; [done|].
  rewrite run_cons. apply IH, step_count_ok, Hs.
Qed.

Lemma arrive_count_ok rows events :
  Concurrent.open_count_of rows id = Some start →
  count_ok {| Concurrent.rows := rows;
              Concurrent.handlers := Concurrent.arrive id events |}.
Proof.
  intros Hstart.
  assert (Concurrent.returned_count (Concurrent.arrive id events) = 0%nat) as Hd.
  { induction events as [|ev events IH]; [done|].
    unfold Concurrent.returned_count in *; simpl. by rewrite IH. }
  split; simpl; rewrite Hd.
  - exists start. split; [done|lia].
  - unfold Concurrent.arrive. apply Forall_fmap, Forall_forall.
    intros ev _. by split.
Qed.
End interleavings.

Lemma insert_middle {A} (l1 l2 : list A) (x y : A) :
  <[length l1:=y]> (l1 ++ x :: l2) = l1 ++ y :: l2.
Proof. induction l1 as [|z l1 IH]; [done|]. simpl. by rewrite IH. Qed.

Lemma returned_not_writing hs :
  forallb Concurrent.returned hs = true → existsb Concurrent.writing hs = false.
Proof.
  induction hs as [|h hs IH]; [done|]. simpl.
  intros [Hh Hhs]%andb_true_iff. rewrite IH by done.
  unfold Concurrent.returned, Concurrent.writing in *.
  by destruct (Concurrent.position_of h).
Qed.

Lemma arrive_not_writing tracking_id events :
  existsb Concurrent.writing (Concurrent.arrive tracking_id events) = false.
Proof. induction events as [|ev events IH]; [done|]. simpl. exact IH. Qed.

(** A handler that is given three steps in a row while no other handler
    holds a transaction: its SELECT, its UPDATE and its commit. *)
Lemma alone_for_three_steps rows before h after r :
  rows !! Concurrent.tracking_id h = Some r →
  Concurrent.position_of h = Concurrent.At_select →
  existsb Concurrent.writing before = false →
  existsb Concurrent.writing after = false →
  Concurrent.run [length before; length before; length before]
    {| Concurrent.rows := rows; Concurrent.handlers := before ++ h :: after |}
  = {| Concurrent.rows :=
         EmailTracking.update
           (Concurrent.clock h, default 0 (EmailTracking.open_count r) + 1,
            agent_of (Concurrent.req h), remote_addr (Concurrent.req h),
            Concurrent.tracking_id h) rows;
       Concurrent.handlers :=
         before ++ Concurrent.move h Concurrent.Returned :: after |}.
Proof.
  intros Hr Hat Hbefore Hafter.
  rewrite !run_cons. unfold Concurrent.run; simpl foldl.
  unfold Concurrent.step at 3; simpl.
  rewrite list_lookup_middle, Hat, insert_middle by done.
  unfold Concurrent.step at 2; simpl.
  rewrite list_lookup_middle by done. simpl.
  unfold EmailTracking.select_open_count. rewrite Hr. simpl.
  rewrite existsb_app. simpl. rewrite Hbefore, Hafter. simpl.
  rewrite insert_middle.
  unfold Concurrent.step; simpl.
  rewrite list_lookup_middle by done. simpl.
  by rewrite insert_middle.
Qed.

Lemma one_by_one_from tracking_id events : ∀ before rows c,
  Concurrent.open_count_of rows tracking_id = Some c →
  forallb Concurrent.returned before = true →
  let s := Concurrent.run
             (flat_map (λ i, [i; i; i]) (seq (length before) (length events)))
             {| Concurrent.rows := rows;
                Concurrent.handlers :=
                  before ++ Concurrent.arrive tracking_id events |} in
  Concurrent.all_returned s = true
  ∧ Concurrent.open_count_of (Concurrent.rows s) tracking_id
    = Some (c + Z.of_nat (length events)).
Proof.
  induction events as [|[req t] events IH]; intros before rows c Hc Hbefore.
  - simpl. unfold Concurrent.all_returned; simpl.
    rewrite app_nil_r, Hbefore, Hc. split; [done|]. f_equal. lia.
  - cbn zeta. simpl length. simpl seq. simpl flat_map.
    change (?a :: ?b :: ?c :: ?l) with ([a; b; c] ++ l).
    rewrite run_app.
    apply open_count_of_Some in Hc as (r & Hr & Hcount).
    simpl Concurrent.arrive. fold (Concurrent.arrive tracking_id events).
    rewrite (alone_for_three_steps rows before _ _ r);
      [|done|done|by apply returned_not_writing|by apply arrive_not_writing].
    simpl. rewrite Hcount. simpl.
    rewrite cons_middle, app_assoc.
    set (before' := before ++ [_]).
    assert (length before' = S (length before)) as Hlen.
    { subst before'. rewrite length_app. simpl. lia. }
    rewrite <- Hlen.
    destruct (IH before'
                (EmailTracking.update
                   (t, c + 1, agent_of req, remote_addr req, tracking_id) rows)
                (c + 1)) as [Hall Hfinal].
    + by eapply open_count_of_update.
    + subst before'. rewrite forallb_app, Hbefore. done.
    + unfold EmailTracking.update in Hall, Hfinal.
      split; [exact Hall|]. rewrite Hfinal. f_equal. lia.
Qed.

(** A handler that runs alone does to the table what [track_email] does
    when the store works. *)
Lemma alone_agrees_with_track_email tracking_id req t w :
  Concurrent.rows
    (Concurrent.run [0; 0; 0]%nat
       {| Concurrent.rows := email_tracking w;
          Concurrent.handlers := Concurrent.arrive tracking_id [(req, t)] |})
  = email_tracking (track_email tracking_id req (healthy t) w).2.
Proof.
  rewrite track_email_email_tracking.
  destruct (email_tracking w !! tracking_id) as [r|] eqn:Hr.
  - exact (f_equal Concurrent.rows
             (alone_for_three_steps (email_tracking w) []
                {| Concurrent.tracking_id := tracking_id; Concurrent.req := req;
                   Concurrent.clock := t;
                   Concurrent.position_of := Concurrent.At_select |}
                [] r Hr eq_refl eq_refl eq_refl)).
  - unfold Concurrent.run, Concurrent.step; simpl.
    unfold EmailTracking.select_open_count. rewrite Hr. reflexivity.
Qed.




(** * Further properties of the handlers *)

Lemma serve_tables a w :
  (email_tracking (serve a w).2 =
     match target a with
     | Track tracking_id =>
         match email_tracking w !! tracking_id with
         | Some r =>
             if store_accepts (conditions a)
             then EmailTracking.update
                    (now (conditions a),
                     default 0 (EmailTracking.open_count r) + 1,
                     agent_of (sent a), remote_addr (sent a), tracking_id)
                    (email_tracking w)
             else email_tracking w
         | None => email_tracking w
         end
     | Click _ => email_tracking w
     end)
  ∧ (link_tracking (serve a w).2 =
       match target a with
       | Track _ => link_tracking w
       | Click link_id =>
           match link_tracking w !! link_id with
           | Some l =>
               match LinkTracking.click_count l with
               | Some n =>
                   if store_accepts (conditions a)
                   then LinkTracking.update
                          (n + 1, now (conditions a), agent_of (sent a),
                           remote_addr (sent a), link_id) (link_tracking w)
                   else link_tracking w
               | None => link_tracking w
               end
           | None => link_tracking w
           end
       end).
Proof.
  destruct a as [[id|id] req e]; unfold serve;
    cbn [target sent conditions dispatch].
  - split; [apply track_email_email_tracking|apply track_email_link_tracking].
  - split; [apply track_link_click_email_tracking
           |apply track_link_click_link_tracking].
Qed.

(** X1: after open events served one after the other, all taken by the
    store, the record holds the user agent and the source address of the
    last request only. *)
Theorem opens_keep_last_seen_only tracking_id events : ∀ w r ev,
  email_tracking w !! tracking_id = Some r →
  Forall (λ ev, store_accepts ev.2 = true) events →
  last events = Some ev →
  ∃ r',
    email_tracking (serve_all (opens tracking_id events) w).2 !! tracking_id
      = Some r'
    ∧ EmailTracking.user_agent r' = Some (agent_of ev.1)
    ∧ EmailTracking.ip_address r' = remote_addr ev.1.
Proof.
  induction events as [|[req e] events IH]; intros w r ev Hr Hok Hlast; [done|].
  apply Forall_cons in Hok as [He Hok]. simpl in He.
  unfold opens; simpl map; fold (opens tracking_id events).
  rewrite serve_all_cons; simpl snd.
  set (a := {| target := Track tracking_id; sent := req; conditions := e |}).
  pose proof (serve_email_tracking_lookup a w tracking_id r Hr) as H1.
  rewrite decide_True in H1 by (by subst a; simpl; rewrite He).
  destruct events as [|ev' events].
  - simpl in Hlast. injection Hlast as <-. simpl.
    eexists; split; [exact H1|]. done.
  - by apply (IH _ _ _ H1).
Qed.

Lemma opens_keep_last_seen_only_witness :
  ∃ r',
    email_tracking
      (serve_all (opens "abc123" [(browser, healthy 2001); (test_browser, healthy 2002)])
                 example_world).2 !! "abc123" = Some r'
    ∧ EmailTracking.user_agent r' = Some (agent_of (test_browser, healthy 2002).1)
    ∧ EmailTracking.ip_address r' = remote_addr (test_browser, healthy 2002).1.
Proof.
  apply (opens_keep_last_seen_only "abc123"
           [(browser, healthy 2001); (test_browser, healthy 2002)]
           example_world abc123).
  - vm_compute. reflexivity.
  - repeat constructor.
  - reflexivity.
Defined.

(** X2: a request without a [User-Agent] header is recorded with the user
    agent "Unknown", by the open handler and by the click handler. *)
Theorem missing_user_agent_recorded_as_unknown req e w :
  headers req !! "User-Agent" = None →
  store_accepts e = true →
  (∀ tracking_id r,
     email_tracking w !! tracking_id = Some r →
     ∃ r', email_tracking (track_email tracking_id req e w).2 !! tracking_id
             = Some r'
           ∧ EmailTracking.user_agent r' = Some "Unknown")
  ∧ (∀ link_id l n,
       link_tracking w !! link_id = Some l →
       LinkTracking.click_count l = Some n →
       ∃ l', link_tracking (track_link_click link_id req e w).2 !! link_id
               = Some l'
             ∧ LinkTracking.user_agent l' = Some "Unknown").
Proof.
  intros Hnone He. split.
  - intros tracking_id r Hr.
    pose proof (serve_email_tracking_lookup
                  {| target := Track tracking_id; sent := req; conditions := e |}
                  w tracking_id r Hr) as H.
    rewrite decide_True in H by (by simpl; rewrite He).
    eexists; split; [exact H|]. simpl. unfold agent_of. by rewrite Hnone.
  - intros link_id l n Hl Hn.
    pose proof (serve_link_tracking_lookup
                  {| target := Click link_id; sent := req; conditions := e |}
                  w link_id l Hl) as H.
    rewrite Hn, decide_True in H by (by simpl; rewrite He).
    eexists; split; [exact H|]. simpl. unfold agent_of. by rewrite Hnone.
Qed.

Lemma missing_user_agent_recorded_as_unknown_witness :
  (∃ r', email_tracking
           (track_email "abc123" {| headers := ∅; remote_addr := None |}
              (healthy 2001) example_world).2 !! "abc123" = Some r'
         ∧ EmailTracking.user_agent r' = Some "Unknown")
  ∧ (∃ l', link_tracking
             (track_link_click "lnk1" {| headers := ∅; remote_addr := None |}
                (healthy 2001) example_world).2 !! "lnk1" = Some l'
           ∧ LinkTracking.user_agent l' = Some "Unknown").
Proof.
  assert (H := missing_user_agent_recorded_as_unknown
                 {| headers := ∅; remote_addr := None |} (healthy 2001)
                 example_world eq_refl eq_refl).
  split.
  - apply (proj1 H "abc123" abc123). vm_compute. reflexivity.
  - apply (proj2 H "lnk1" lnk1 0); vm_compute; reflexivity.
Defined.

(** X3: requests never create or delete a record: after any sequence of
    requests, whatever fails, both tables have the keys they had. *)
Theorem requests_keep_the_keys arrivals w :
  dom (email_tracking (serve_all arrivals w).2) = dom (email_tracking w)
  ∧ dom (link_tracking (serve_all arrivals w).2) = dom (link_tracking w).
Proof.
  revert w. induction arrivals as [|a arrivals IH]; intros w; [done|].
  rewrite serve_all_cons; simpl snd.
  destruct (IH (serve a w).2) as [-> ->].
  destruct (serve_tables a w) as [-> ->].
  split; repeat case_match; try done.
  - unfold EmailTracking.update. apply dom_alter_L.
  - unfold LinkTracking.update. apply dom_alter_L.
Qed.

(** X4: a request touches the record of its own identifier only: every
    tracking record under another identifier and every link record under
    another identifier is what it was; so an open leaves the whole of
    [link_tracking] alone and a click the whole of [email_tracking]. *)
Theorem request_leaves_other_records a w :
  (∀ tracking_id,
     target a ≠ Track tracking_id →
     email_tracking (serve a w).2 !! tracking_id = email_tracking w !! tracking_id)
  ∧ (∀ link_id,
       target a ≠ Click link_id →
       link_tracking (serve a w).2 !! link_id = link_tracking w !! link_id).
Proof.
  destruct (serve_tables a w) as [-> ->]. split.
  - intros tracking_id Hne. repeat case_match; try done.
    unfold EmailTracking.update. apply lookup_alter_ne. congruence.
  - intros link_id Hne. repeat case_match; try done.
    unfold LinkTracking.update. apply lookup_alter_ne. congruence.
Qed.

Lemma request_leaves_other_records_witness :
  email_tracking
    (serve {| target := Click "lnk1"; sent := browser; conditions := healthy 2001 |}
           example_world).2 !! "abc123" = email_tracking example_world !! "abc123"
  ∧ link_tracking
      (serve {| target := Click "lnk1"; sent := browser; conditions := healthy 2001 |}
             example_world).2 !! "lnk2" = link_tracking example_world !! "lnk2".
Proof.
  split.
  - apply (proj1 (request_leaves_other_records _ example_world) "abc123").
    discriminate.
  - apply (proj2 (request_leaves_other_records _ example_world) "lnk2").
    discriminate.
Defined.

(** X5: a request whose write the store does not take (connecting, the
    SELECT, the UPDATE or the commit fails) leaves both tables as they were,
    also when it fails after the UPDATE: the transaction is lost with the
    connection. *)
Theorem refused_request_changes_nothing a w :
  store_accepts (conditions a) = false →
  email_tracking (serve a w).2 = email_tracking w
  ∧ link_tracking (serve a w).2 = link_tracking w.
Proof.
  intros He. destruct (serve_tables a w) as [-> ->].
  rewrite He. split; by repeat case_match.
Qed.

Lemma refused_request_changes_nothing_witness :
  email_tracking
    (serve {| target := Track "abc123"; sent := browser;
              conditions := failing Commit 2001 |} example_world).2
    = email_tracking example_world
  ∧ link_tracking
      (serve {| target := Track "abc123"; sent := browser;
                conditions := failing Commit 2001 |} example_world).2
    = link_tracking example_world.
Proof.
  apply (refused_request_changes_nothing
           {| target := Track "abc123"; sent := browser;
              conditions := failing Commit 2001 |} example_world).
  reflexivity.
Defined.

(** X6: when [conn.close()] fails after the commit of a click, the click is
    counted and timestamped, and yet answered with status 500 instead of the
    redirect. *)
Theorem click_counted_though_close_fails link_id req e w l n :
  link_tracking w !! link_id = Some l →
  LinkTracking.click_count l = Some n →
  store_accepts e = true →
  fails e Close = true →
  (track_link_click link_id req e w).1
    = inr (Body_status "Error processing link" 500)
  ∧ ∃ l', link_tracking (track_link_click link_id req e w).2 !! link_id = Some l'
          ∧ LinkTracking.click_count l' = Some (n + 1)
          ∧ LinkTracking.last_clicked l' = Some (now e).
Proof.
  intros Hl Hn He Hclose. split.
  - rewrite track_link_click_response, Hl, Hn, Hclose.
    by repeat destruct (fails e _).
  - pose proof (serve_link_tracking_lookup
                  {| target := Click link_id; sent := req; conditions := e |}
                  w link_id l Hl) as H.
    rewrite Hn, decide_True in H by (by simpl; rewrite He).
    eexists; split; [exact H|]. done.
Qed.

Lemma click_counted_though_close_fails_witness :
  (track_link_click "lnk1" browser (failing Close 2001) example_world).1
    = inr (Body_status "Error processing link" 500)
  ∧ ∃ l', link_tracking
            (track_link_click "lnk1" browser (failing Close 2001) example_world).2
            !! "lnk1" = Some l'
          ∧ LinkTracking.click_count l' = Some (0 + 1)
          ∧ LinkTracking.last_clicked l' = Some (now (failing Close 2001)).
Proof.
  apply (click_counted_though_close_fails "lnk1" browser (failing Close 2001)
           example_world lnk1 0).
  - vm_compute. reflexivity.
  - reflexivity.
  - reflexivity.
  - reflexivity.
Defined.

Lemma serve_click_response link_id req e w l n :
  link_tracking w !! link_id = Some l →
  LinkTracking.click_count l = Some n →
  (∀ op, fails e op = false) →
  (serve {| target := Click link_id; sent := req; conditions := e |} w).1
    = inr (redirect (LinkTracking.original_url l)).
Proof.
  intros Hl Hn Hok. unfold serve; simpl.
  by rewrite track_link_click_response, Hl, Hn, !Hok.
Qed.




(** X9: an exception raised in the [try] of [track_email] is reported as the
    last line of the standard output, and the caller still gets the pixel. *)
Theorem track_email_reports_exception tracking_id req e w x :
  (track_email_try tracking_id req e w).1 = inl x →
  last (stdout (track_email tracking_id req e w).2) = Some (Tracking_error x)
  ∧ (track_email tracking_id req e w).1
    = inr (Response TRACKING_PIXEL "image/gif").
Proof.
  intros Hraise. split.
  - by apply track_email_logs_exception.
  - apply track_email_response.
Qed.

Lemma track_email_reports_exception_witness :
  last (stdout (track_email "abc123" browser (failing Execute_update 2001)
                  example_world).2)
    = Some (Tracking_error (StoreError Execute_update))
  ∧ (track_email "abc123" browser (failing Execute_update 2001) example_world).1
    = inr (Response TRACKING_PIXEL "image/gif").
Proof.
  apply (track_email_reports_exception "abc123" browser
           (failing Execute_update 2001) example_world
           (StoreError Execute_update)).
  vm_compute. reflexivity.
Defined.

(** ** [test_tracking] *)

Section test_tracking_facts.
Variable str_exn : exn → string.

Ltac unfold_test :=
  unfold test_tracking, test_tracking_try,
    try_except, connect, execute_select, execute_update, commit, close,
    datetime_now, store_call, gets, modify, raise,
    mbind, M_bind, bind, mret, M_ret, ret, visible;
  simpl.

Lemma test_tracking_page tracking_id e w :
  (test_tracking str_exn tracking_id e w).1 =
    inr (if fails e Connect
         then "<html><body><h1>Test Error</h1><p>"
              +:+ str_exn (StoreError Connect) +:+ "</p></body></html>"
         else if fails e Execute_select
         then "<html><body><h1>Test Error</h1><p>"
              +:+ str_exn (StoreError Execute_select) +:+ "</p></body></html>"
         else match email_tracking w !! tracking_id with
              | None =>
                  "<html><body><h1>Test Tracking</h1><p>Tracking ID not found: "
                  +:+ tracking_id +:+ "</p></body></html>"
              | Some r =>
                  if fails e Execute_update
                  then "<html><body><h1>Test Error</h1><p>"
                       +:+ str_exn (StoreError Execute_update)
                       +:+ "</p></body></html>"
                  else if fails e Commit
                  then "<html><body><h1>Test Error</h1><p>"
                       +:+ str_exn (StoreError Commit) +:+ "</p></body></html>"
                  else "<html><body><h1>Test Tracking</h1><p>Successfully updated tracking for ID: "
                       +:+ tracking_id +:+ "</p><p>New open count: "
                       +:+ str_int (default 0 (EmailTracking.open_count r) + 1)
                       +:+ "</p></body></html>"
              end).
Proof.
  unfold_test. unfold EmailTracking.select_open_count.
  store_case e Connect. store_case e Execute_select.
  destruct (email_tracking w !! tracking_id) as [r|]; simpl; [|reflexivity].
  store_case e Execute_update. store_case e Commit.
Qed.

Lemma test_tracking_email_tracking tracking_id e w :
  email_tracking (test_tracking str_exn tracking_id e w).2 =
    match email_tracking w !! tracking_id with
    | Some r =>
        if store_accepts e
        then EmailTracking.update
               (now e, default 0 (EmailTracking.open_count r) + 1,
                "Test Browser", Some "127.0.0.1", tracking_id) (email_tracking w)
        else email_tracking w
    | None => email_tracking w
    end.
Proof.
  unfold_test. unfold store_accepts, EmailTracking.select_open_count.
  store_case e Connect; [by case_match|].
  store_case e Execute_select; [by case_match|].
  destruct (email_tracking w !! tracking_id); simpl; [|reflexivity].
  store_case e Execute_update. store_case e Commit.
Qed.

Lemma test_tracking_link_tracking tracking_id e w :
  link_tracking (test_tracking str_exn tracking_id e w).2 = link_tracking w.
Proof.
  unfold_test.
  store_case e Connect. store_case e Execute_select.
  destruct (EmailTracking.select_open_count _ _); simpl; [|reflexivity].
  store_case e Execute_update. store_case e Commit.
Qed.

(** X10: [test_tracking] does to the tables what [track_email] does for a
    request from the user agent "Test Browser" at 127.0.0.1, whatever store
    operation fails. *)
Theorem test_tracking_writes_like_track_email tracking_id e w :
  email_tracking (test_tracking str_exn tracking_id e w).2
    = email_tracking (track_email tracking_id test_browser e w).2
  ∧ link_tracking (test_tracking str_exn tracking_id e w).2
    = link_tracking (track_email tracking_id test_browser e w).2.
Proof.
  rewrite test_tracking_email_tracking, track_email_email_tracking,
    test_tracking_link_tracking, track_email_link_tracking.
  done.
Qed.

(** X11: when the record exists and the store takes the write,
    [test_tracking] answers with the success page, and the count the page
    shows is the count now stored. *)
Theorem test_tracking_shows_stored_count tracking_id e w r :
  email_tracking w !! tracking_id = Some r →
  store_accepts e = true →
  ∃ r' n,
    email_tracking (test_tracking str_exn tracking_id e w).2 !! tracking_id
      = Some r'
    ∧ EmailTracking.open_count r' = Some n
    ∧ n = default 0 (EmailTracking.open_count r) + 1
    ∧ (test_tracking str_exn tracking_id e w).1
      = inr ("<html><body><h1>Test Tracking</h1><p>Successfully updated tracking for ID: "
             +:+ tracking_id +:+ "</p><p>New open count: " +:+ str_int n
             +:+ "</p></body></html>").
Proof.
  intros Hr He.
  exists (EmailTracking.set_columns (now e)
            (default 0 (EmailTracking.open_count r) + 1)
            "Test Browser" (Some "127.0.0.1") r),
         (default 0 (EmailTracking.open_count r) + 1).
  split_and!; try done.
  - rewrite test_tracking_email_tracking, Hr, He.
    unfold EmailTracking.update. by rewrite lookup_alter_eq, Hr.
  - rewrite test_tracking_page, Hr.
    unfold store_accepts in He.
    by destruct (fails e Connect), (fails e Execute_select),
      (fails e Execute_update), (fails e Commit).
Qed.

(** X12: for a tracking identifier without a record, the store answering the
    SELECT, [test_tracking] answers with the not-found page and leaves both
    tables as they were. *)
Theorem test_tracking_unknown_id tracking_id e w :
  email_tracking w !! tracking_id = None →
  fails e Connect = false → fails e Execute_select = false →
  (test_tracking str_exn tracking_id e w).1
    = inr ("<html><body><h1>Test Tracking</h1><p>Tracking ID not found: "
           +:+ tracking_id +:+ "</p></body></html>")
  ∧ email_tracking (test_tracking str_exn tracking_id e w).2 = email_tracking w
  ∧ link_tracking (test_tracking str_exn tracking_id e w).2 = link_tracking w.
Proof.
  intros Hnone Hc Hs. split_and!.
  - by rewrite test_tracking_page, Hnone, Hc, Hs.
  - by rewrite test_tracking_email_tracking, Hnone.
  - apply test_tracking_link_tracking.
Qed.

(** X13: when the record exists and the store does not take the write,
    [test_tracking] lets no exception escape: it answers with the error page
    carrying the message of the store operation that failed, and both tables
    are as they were. *)
Theorem test_tracking_store_failure tracking_id e w r :
  email_tracking w !! tracking_id = Some r →
  store_accepts e = false →
  (∃ op, fails e op = true
         ∧ (test_tracking str_exn tracking_id e w).1
           = inr ("<html><body><h1>Test Error</h1><p>"
                  +:+ str_exn (StoreError op) +:+ "</p></body></html>"))
  ∧ email_tracking (test_tracking str_exn tracking_id e w).2 = email_tracking w
  ∧ link_tracking (test_tracking str_exn tracking_id e w).2 = link_tracking w.
Proof.
  intros Hr He. split_and!.
  - rewrite test_tracking_page, Hr. unfold store_accepts in He.
    destruct (fails e Connect) eqn:?; [by exists Connect|].
    destruct (fails e Execute_select) eqn:?; [by exists Execute_select|].
    destruct (fails e Execute_update) eqn:?; [by exists Execute_update|].
    destruct (fails e Commit) eqn:?; [by exists Commit|].
    done.
  - by rewrite test_tracking_email_tracking, Hr, He.
  - apply test_tracking_link_tracking.
Qed.
End test_tracking_facts.

Lemma test_tracking_shows_stored_count_witness :
  ∃ r' n,
    email_tracking
      (test_tracking (λ _, "database is locked") "abc123" (healthy 2001)
         example_world).2 !! "abc123" = Some r'
    ∧ EmailTracking.open_count r' = Some n
    ∧ n = default 0 (EmailTracking.open_count abc123) + 1
    ∧ (test_tracking (λ _, "database is locked") "abc123" (healthy 2001)
         example_world).1
      = inr ("<html><body><h1>Test Tracking</h1><p>Successfully updated tracking for ID: "
             +:+ "abc123" +:+ "</p><p>New open count: " +:+ str_int n
             +:+ "</p></body></html>").
Proof.
  apply (test_tracking_shows_stored_count (λ _, "database is locked") "abc123"
           (healthy 2001) example_world abc123).
  - vm_compute. reflexivity.
  - reflexivity.
Defined.

Lemma test_tracking_unknown_id_witness :
  (test_tracking (λ _, "database is locked") "nobody" (failing Commit 2001)
     example_world).1
    = inr ("<html><body><h1>Test Tracking</h1><p>Tracking ID not found: "
           +:+ "nobody" +:+ "</p></body></html>")
  ∧ email_tracking
      (test_tracking (λ _, "database is locked") "nobody" (failing Commit 2001)
         example_world).2 = email_tracking example_world
  ∧ link_tracking
      (test_tracking (λ _, "database is locked") "nobody" (failing Commit 2001)
         example_world).2 = link_tracking example_world.
Proof.
  apply (test_tracking_unknown_id (λ _, "database is locked") "nobody"
           (failing Commit 2001) example_world).
  - vm_compute. reflexivity.
  - reflexivity.
  - reflexivity.
Defined.

Lemma test_tracking_store_failure_witness :
  (∃ op, fails (failing Commit 2001) op = true
         ∧ (test_tracking (λ _, "database is locked") "abc123"
              (failing Commit 2001) example_world).1
           = inr ("<html><body><h1>Test Error</h1><p>"
                  +:+ (λ _, "database is locked") (StoreError op)
                  +:+ "</p></body></html>"))
  ∧ email_tracking
      (test_tracking (λ _, "database is locked") "abc123" (failing Commit 2001)
         example_world).2 = email_tracking example_world
  ∧ link_tracking
      (test_tracking (λ _, "database is locked") "abc123" (failing Commit 2001)
         example_world).2 = link_tracking example_world.
Proof.
  apply (test_tracking_store_failure (λ _, "database is locked") "abc123"
           (failing Commit 2001) example_world abc123).
  - vm_compute. reflexivity.
  - reflexivity.
Defined.

(** ** The statistics readers *)

#[local] Instance sent_not_before_total : Total sent_not_before.
Proof. intros x y. unfold sent_not_before. lia. Qed.

#[local] Instance sent_not_before_trans : Transitive sent_not_before.
Proof. intros x y z. unfold sent_not_before. lia. Qed.

#[local] Instance clicked_not_before_total : Total clicked_not_before.
Proof.
  intros x y. unfold clicked_not_before.
  destruct (LinkTracking.last_clicked x.2) as [a|],
    (LinkTracking.last_clicked y.2) as [b|];
    repeat case_decide; simplify_eq/=; try lia; try tauto.
Qed.

#[local] Instance clicked_not_before_trans : Transitive clicked_not_before.
Proof.
  intros x y z. unfold clicked_not_before.
  destruct (LinkTracking.last_clicked x.2) as [a|],
    (LinkTracking.last_clicked y.2) as [b|],
    (LinkTracking.last_clicked z.2) as [c|];
    repeat case_decide; simplify_eq/=; try lia; try tauto.
  all: intros; try lia.
  all: try (exfalso; assert (a = c) by lia; congruence).
  all: exfalso; assert (b = c) by lia; congruence.
Qed.

Lemma StronglySorted_sublist {A} (R : relation A) (l k : list A) :
  l `sublist_of` k → StronglySorted R k → StronglySorted R l.
Proof.
  induction 1 as [|x l k Hsub IH|x l k Hsub IH]; intros Hk.
  - constructor.
  - apply StronglySorted_inv in Hk as [Hk Hx]. constructor; [by apply IH|].
    rewrite Forall_forall in Hx |- *. intros y Hy.
    apply Hx. by eapply elem_of_sublist.
  - apply StronglySorted_inv in Hk as [Hk _]. by apply IH.
Qed.

Lemma StronglySorted_lookup {A} (R : relation A) (l : list A) i j x y :
  StronglySorted R l → (i < j)%nat →
  l !! i = Some x → l !! j = Some y → R x y.
Proof.
  intros Hl. revert i j. induction Hl as [|z l Hl IH Hz]; intros i j Hij Hi Hj.
  - done.
  - destruct j as [|j]; [lia|]. simpl in Hj. destruct i as [|i].
    + simpl in Hi. injection Hi as <-.
      rewrite Forall_forall in Hz. apply Hz. by eapply list_elem_of_lookup_2.
    + simpl in Hi. apply (IH i j); [lia|done|done].
Qed.

Lemma elem_of_by_sent_at_desc rows x :
  x ∈ by_sent_at_desc rows ↔ rows !! x.1 = Some x.2.
Proof.
  unfold by_sent_at_desc. rewrite merge_sort_Permutation.
  apply elem_of_map_to_list'.
Qed.

Lemma NoDup_by_sent_at_desc rows : NoDup (by_sent_at_desc rows).*1.
Proof.
  unfold by_sent_at_desc. rewrite merge_sort_Permutation.
  apply NoDup_fst_map_to_list.
Qed.

Lemma sorted_by_sent_at_desc rows :
  StronglySorted sent_not_before (by_sent_at_desc rows).
Proof. apply StronglySorted_merge_sort; apply _. Qed.

Lemma get_recipient_stats_outcome recipient e w :
  get_recipient_stats recipient e w =
    (if fails e Connect then inl (StoreError Connect)
     else if fails e Execute_select then inl (StoreError Execute_select)
     else if fails e Close then inl (StoreError Close)
     else inr {| Stats.recipient := recipient;
                 Stats.emails :=
                   stat_of_row
                   <$> select_by_recipient (email_tracking w) recipient |},
     w).
Proof.
  unfold get_recipient_stats, connect, execute_select, close, store_call, gets,
    mbind, M_bind, bind, mret, M_ret, ret, visible; simpl.
  store_case e Connect. store_case e Execute_select. store_case e Close.
Qed.

Lemma elem_of_recipient_emails rows recipient entry :
  entry ∈ stat_of_row <$> select_by_recipient rows recipient
  ↔ ∃ tracking_id r,
      rows !! tracking_id = Some r
      ∧ EmailTracking.recipient_email r = recipient
      ∧ entry = {| Stats.tracking_id := tracking_id;
                   Stats.subject := EmailTracking.subject r;
                   Stats.sent_at := EmailTracking.sent_at r;
                   Stats.opened_at := EmailTracking.opened_at r;
                   Stats.open_count := default 0 (EmailTracking.open_count r) |}.
Proof.
  unfold select_by_recipient. rewrite <- list_fmap_compose.
  rewrite list_elem_of_fmap. setoid_rewrite merge_sort_Permutation. split.
  - intros ([id r] & -> & [Hrcpt Hin%elem_of_map_to_list']%list_elem_of_filter).
    by exists id, r.
  - intros (id & r & Hr & Hrcpt & ->). exists (id, r). split; [done|].
    apply list_elem_of_filter. split; [done|]. by apply elem_of_map_to_list'.
Qed.

(** X14: the store working, [get_recipient_stats] reports exactly the
    records of the recipient: one entry for each tracking record whose
    recipient address is the one asked for, with its identifier, subject,
    sent and opened timestamps and its open count, an unset count reading
    0; no entry for anything else, no identifier twice, and the world as it
    was. *)
Theorem recipient_stats_are_the_records recipient e w :
  fails e Connect = false → fails e Execute_select = false →
  fails e Close = false →
  ∃ report,
    get_recipient_stats recipient e w = (inr report, w)
    ∧ Stats.recipient report = recipient
    ∧ NoDup (Stats.tracking_id <$> Stats.emails report)
    ∧ ∀ entry,
        entry ∈ Stats.emails report
        ↔ ∃ tracking_id r,
            email_tracking w !! tracking_id = Some r
            ∧ EmailTracking.recipient_email r = recipient
            ∧ entry
              = {| Stats.tracking_id := tracking_id;
                   Stats.subject := EmailTracking.subject r;
                   Stats.sent_at := EmailTracking.sent_at r;
                   Stats.opened_at := EmailTracking.opened_at r;
                   Stats.open_count :=
                     default 0 (EmailTracking.open_count r) |}.
Proof.
  intros Hc Hs Hcl. eexists. rewrite get_recipient_stats_outcome, Hc, Hs, Hcl.
  split_and!; [done|done| |]; simpl.
  - unfold select_by_recipient. rewrite <- !list_fmap_compose.
    erewrite (list_fmap_ext _ fst) by (by intros ? []).
    rewrite merge_sort_Permutation.
    eapply sublist_NoDup; [apply (NoDup_fst_map_to_list (email_tracking w))|].
    apply fmap_sublist, sublist_filter.
  - apply elem_of_recipient_emails.
Qed.



(** X17: an open event taken by the store shows in the statistics of the
    recipient: the entry of the record now carries the count plus one and
    the clock reading of the event as opened timestamp. *)
Theorem open_shows_in_recipient_stats tracking_id req e e' w r :
  email_tracking w !! tracking_id = Some r →
  store_accepts e = true →
  fails e' Connect = false → fails e' Execute_select = false →
  fails e' Close = false →
  ∃ report,
    (get_recipient_stats (EmailTracking.recipient_email r) e'
       (track_email tracking_id req e w).2).1 = inr report
    ∧ {| Stats.tracking_id := tracking_id;
         Stats.subject := EmailTracking.subject r;
         Stats.sent_at := EmailTracking.sent_at r;
         Stats.opened_at := Some (now e);
         Stats.open_count := default 0 (EmailTracking.open_count r) + 1 |}
      ∈ Stats.emails report.
Proof.
  intros Hr He Hc Hs Hcl. eexists.
  rewrite get_recipient_stats_outcome, Hc, Hs, Hcl. split; [done|]. simpl.
  apply elem_of_recipient_emails.
  pose proof (serve_email_tracking_lookup
                {| target := Track tracking_id; sent := req; conditions := e |}
                w tracking_id r Hr) as H.
  rewrite decide_True in H by (by simpl; rewrite He).
  eexists _, _. split; [exact H|]. done.
Qed.

Lemma recipient_stats_are_the_records_witness :
  ∃ report,
    get_recipient_stats "a@x.com" (healthy 3000) example_world
      = (inr report, example_world)
    ∧ Stats.recipient report = "a@x.com"
    ∧ NoDup (Stats.tracking_id <$> Stats.emails report)
    ∧ ∀ entry,
        entry ∈ Stats.emails report
        ↔ ∃ tracking_id r,
            email_tracking example_world !! tracking_id = Some r
            ∧ EmailTracking.recipient_email r = "a@x.com"
            ∧ entry
              = {| Stats.tracking_id := tracking_id;
                   Stats.subject := EmailTracking.subject r;
                   Stats.sent_at := EmailTracking.sent_at r;
                   Stats.opened_at := EmailTracking.opened_at r;
                   Stats.open_count :=
                     default 0 (EmailTracking.open_count r) |}.
Proof.
  apply (recipient_stats_are_the_records "a@x.com" (healthy 3000) example_world);
    reflexivity.
Defined.


Lemma open_shows_in_recipient_stats_witness :
  ∃ report,
    (get_recipient_stats (EmailTracking.recipient_email abc123) (healthy 3000)
       (track_email "abc123" browser (healthy 2001) example_world).2).1
      = inr report
    ∧ {| Stats.tracking_id := "abc123";
         Stats.subject := EmailTracking.subject abc123;
         Stats.sent_at := EmailTracking.sent_at abc123;
         Stats.opened_at := Some (now (healthy 2001));
         Stats.open_count := default 0 (EmailTracking.open_count abc123) + 1 |}
      ∈ Stats.emails report.
Proof.
  apply (open_shows_in_recipient_stats "abc123" browser (healthy 2001)
           (healthy 3000) example_world abc123).
  - vm_compute. reflexivity.
  - reflexivity.
  - reflexivity.
  - reflexivity.
  - reflexivity.
Defined.

(** X18: the pages of [view_stats] and [view_link_stats] are built from at
    most 100 rows: as many as the table has, up to 100. *)
Theorem stats_pages_show_at_most_100 w :
  length (select_recent_emails (email_tracking w))
    = (size (email_tracking w) `min` 100)%nat
  ∧ length (select_recent_links (link_tracking w))
    = (size (link_tracking w) `min` 100)%nat.
Proof.
  unfold select_recent_emails, recent_emails, by_sent_at_desc,
    select_recent_links, recent_links.
  rewrite !length_fmap, !length_take, !merge_sort_Permutation,
    !length_map_to_list.
  lia.
Qed.

(** X19: the rows [view_stats] shows are records of the table, each at most
    once, most recently sent first. *)
Theorem view_stats_rows_are_recent_records w :
  (∀ x, x ∈ recent_emails (email_tracking w) →
        email_tracking w !! x.1 = Some x.2)
  ∧ NoDup (recent_emails (email_tracking w)).*1
  ∧ StronglySorted sent_not_before (recent_emails (email_tracking w)).
Proof.
  unfold recent_emails. split_and!.
  - intros x Hx. apply elem_of_by_sent_at_desc.
    eapply elem_of_sublist; [exact Hx|apply sublist_take].
  - eapply sublist_NoDup; [apply NoDup_by_sent_at_desc|].
    apply fmap_sublist, sublist_take.
  - eapply StronglySorted_sublist;
      [apply sublist_take|apply sorted_by_sent_at_desc].
Qed.

(** X20: the limit of [view_stats] drops the oldest: a record of the table
    that is not shown was sent no later than every record shown. *)
Theorem view_stats_drops_the_oldest w x y :
  x ∈ recent_emails (email_tracking w) →
  email_tracking w !! y.1 = Some y.2 →
  y ∉ recent_emails (email_tracking w) →
  EmailTracking.sent_at y.2 ≤ EmailTracking.sent_at x.2.
Proof.
  unfold recent_emails. intros Hx Hy%elem_of_by_sent_at_desc Hny.
  pose proof (sorted_by_sent_at_desc (email_tracking w)) as Hsorted.
  rewrite <- (take_drop 100 (by_sent_at_desc (email_tracking w))) in Hy, Hsorted.
  apply elem_of_app in Hy as [Hy|Hy]; [done|].
  exact (StronglySorted_app_1_elem_of _ _ _ _ _ Hsorted Hx Hy).
Qed.

(** X21: [view_link_stats] lists the links most recently clicked first:
    a link that was never clicked comes after every link that was, clicked
    links come by last click, latest first, and links with the same last
    click (or none) by creation, latest first. *)
Theorem view_link_stats_order w i j x y :
  (i < j)%nat →
  recent_links (link_tracking w) !! i = Some x →
  recent_links (link_tracking w) !! j = Some y →
  (LinkTracking.last_clicked x.2 = None → LinkTracking.last_clicked y.2 = None)
  ∧ (∀ a b, LinkTracking.last_clicked x.2 = Some a →
            LinkTracking.last_clicked y.2 = Some b → b ≤ a)
  ∧ (LinkTracking.last_clicked x.2 = LinkTracking.last_clicked y.2 →
     LinkTracking.created_at y.2 ≤ LinkTracking.created_at x.2).
Proof.
  intros Hij Hx Hy.
  assert (clicked_not_before x y) as H.
  { eapply (StronglySorted_lookup _ (recent_links (link_tracking w)) i j);
      [|done|done|done].
    unfold recent_links. eapply StronglySorted_sublist; [apply sublist_take|].
    apply StronglySorted_merge_sort; apply _. }
  unfold clicked_not_before in H.
  destruct (LinkTracking.last_clicked x.2) as [a|],
    (LinkTracking.last_clicked y.2) as [b|];
    case_decide; simplify_eq/=; split_and!; try done; intros; simplify_eq; lia.
Qed.

Lemma length_substring_0 n s :
  (n ≤ String.length s)%nat → String.length (String.substring 0 n s) = n.
Proof.
  revert s. induction n as [|n IH]; intros [|c s]; simpl; intros Hle;
    try done; try lia.
  by rewrite IH by lia.
Qed.

Lemma length_append s1 s2 :
  String.length (s1 +:+ s2) = (String.length s1 + String.length s2)%nat.
Proof. induction s1 as [|c s1 IH]; simpl; [done|]. by rewrite IH. Qed.

Lemma substring_0_append n s1 s2 :
  (n ≤ String.length s1)%nat →
  String.substring 0 n (s1 +:+ s2) = String.substring 0 n s1.
Proof.
  revert s1. induction n as [|n IH]; intros [|c s1]; simpl; intros Hle;
    try done; try lia.
  - by destruct s2.
  - by rewrite IH by lia.
Qed.

Lemma substring_0_idemp n s :
  String.substring 0 n (String.substring 0 n s) = String.substring 0 n s.
Proof.
  revert s. induction n as [|n IH]; intros [|c s]; simpl; try done.
  by rewrite IH.
Qed.


Lemma view_stats_rows_are_recent_records_witness :
  email_tracking example_world !! ("abc123", abc123).1 = Some ("abc123", abc123).2.
Proof.
  apply (proj1 (view_stats_rows_are_recent_records example_world)
           ("abc123", abc123)).
  apply (bool_decide_unpack _). vm_compute. exact I.
Defined.

Lemma view_stats_drops_the_oldest_witness :
  EmailTracking.sent_at (sent_at_time 0).2
    ≤ EmailTracking.sent_at (sent_at_time 100).2.
Proof.
  apply (view_stats_drops_the_oldest hundred_and_one
           (sent_at_time 100) (sent_at_time 0)).
  - apply (bool_decide_unpack _). vm_compute. exact I.
  - vm_compute. reflexivity.
  - apply (bool_decide_unpack _). vm_compute. exact I.
Defined.

Lemma view_link_stats_order_witness :
  (LinkTracking.last_clicked ("lnk2", lnk2).2 = None →
   LinkTracking.last_clicked ("lnk1", lnk1).2 = None)
  ∧ (∀ a b, LinkTracking.last_clicked ("lnk2", lnk2).2 = Some a →
            LinkTracking.last_clicked ("lnk1", lnk1).2 = Some b → b ≤ a)
  ∧ (LinkTracking.last_clicked ("lnk2", lnk2).2
       = LinkTracking.last_clicked ("lnk1", lnk1).2 →
     LinkTracking.created_at ("lnk1", lnk1).2
       ≤ LinkTracking.created_at ("lnk2", lnk2).2).
Proof.
  apply (view_link_stats_order two_links 0 1 ("lnk2", lnk2) ("lnk1", lnk1)).
  - lia.
  - vm_compute. reflexivity.
  - vm_compute. reflexivity.
Defined.


Lemma link_count_after arrivals : ∀ w link_id l c,
  link_tracking w !! link_id = Some l →
  LinkTracking.click_count l = Some c →
  ∃ l',
    link_tracking (serve_all arrivals w).2 !! link_id = Some l'
    ∧ LinkTracking.click_count l'
      = Some (c + Z.of_nat (accepted (Click link_id) arrivals)).
Proof.
  induction arrivals as [|a arrivals IH]; intros w link_id l c Hl Hc.
  - exists l. split; [done|]. rewrite Hc. f_equal. unfold accepted; simpl. lia.
  - rewrite serve_all_cons, accepted_cons; simpl snd.
    pose proof (serve_link_tracking_lookup a w link_id l Hl) as H1.
    rewrite Hc in H1.
    destruct (decide (target a = Click link_id ∧ store_accepts (conditions a))).
    + destruct (IH _ _ _ (c + 1) H1 eq_refl) as (l' & Hl' & Hc').
      exists l'. split; [done|]. rewrite Hc'. f_equal; lia.
    + destruct (IH _ _ _ c H1 Hc) as (l' & Hl' & Hc').
      exists l'. split; [done|]. rewrite Hc'. f_equal; lia.
Qed.

(** X23: over any sequence of requests served one after the other, a
    counter grows by one for each request to its identifier whose write the
    store takes and by nothing else, so it never decreases: the open count
    from any value, [NULL] reading 0, and the click count from any value
    that is not [NULL]. *)
Theorem counters_count_the_accepted_requests arrivals w :
  (∀ tracking_id r,
     email_tracking w !! tracking_id = Some r →
     ∃ r',
       email_tracking (serve_all arrivals w).2 !! tracking_id = Some r'
       ∧ default 0 (EmailTracking.open_count r')
         = default 0 (EmailTracking.open_count r)
           + Z.of_nat (accepted (Track tracking_id) arrivals))
  ∧ (∀ link_id l c,
       link_tracking w !! link_id = Some l →
       LinkTracking.click_count l = Some c →
       ∃ l',
         link_tracking (serve_all arrivals w).2 !! link_id = Some l'
         ∧ LinkTracking.click_count l'
           = Some (c + Z.of_nat (accepted (Click link_id) arrivals))).
Proof.
  split.
  - intros tracking_id r Hr.
    destruct (tracking_record_after arrivals w tracking_id r Hr)
      as (r' & Hr' & Hc' & _).
    by exists r'.
  - intros link_id l c. apply link_count_after.
Qed.

Lemma counters_count_the_accepted_requests_witness :
  (∃ r',
     email_tracking
       (serve_all
          [ {| target := Track "abc123"; sent := browser; conditions := healthy 2001 |};
            {| target := Click "lnk1"; sent := browser; conditions := failing Commit 2002 |};
            {| target := Click "lnk1"; sent := browser; conditions := healthy 2003 |} ]
          example_world).2 !! "abc123" = Some r'
     ∧ default 0 (EmailTracking.open_count r')
       = default 0 (EmailTracking.open_count abc123)
         + Z.of_nat (accepted (Track "abc123")
             [ {| target := Track "abc123"; sent := browser; conditions := healthy 2001 |};
               {| target := Click "lnk1"; sent := browser; conditions := failing Commit 2002 |};
               {| target := Click "lnk1"; sent := browser; conditions := healthy 2003 |} ]))
  ∧ (∃ l',
       link_tracking
         (serve_all
            [ {| target := Track "abc123"; sent := browser; conditions := healthy 2001 |};
              {| target := Click "lnk1"; sent := browser; conditions := failing Commit 2002 |};
              {| target := Click "lnk1"; sent := browser; conditions := healthy 2003 |} ]
            example_world).2 !! "lnk1" = Some l'
       ∧ LinkTracking.click_count l'
         = Some (0 + Z.of_nat (accepted (Click "lnk1")
             [ {| target := Track "abc123"; sent := browser; conditions := healthy 2001 |};
               {| target := Click "lnk1"; sent := browser; conditions := failing Commit 2002 |};
               {| target := Click "lnk1"; sent := browser; conditions := healthy 2003 |} ]))).
Proof.
  split.
  - apply (proj1 (counters_count_the_accepted_requests _ example_world)
             "abc123" abc123).
    vm_compute. reflexivity.
  - apply (proj2 (counters_count_the_accepted_requests _ example_world)
             "lnk1" lnk1 0).
    + vm_compute. reflexivity.
    + reflexivity.
Defined.
